(** * xdgdir: XDG base directories of an application

    A shallow embedding of [app.go] (package [xdgdir]) and of the parts of
    the Go standard library it calls, followed by the properties of the
    path accessors and of the file search.

    Go strings are byte sequences: they are modelled by [string] (a list of
    8-bit [ascii] characters), so that equality of strings is equality of
    bytes.  The platform is a Unix one: the path separator is [/] and the
    path-list separator is [:]. *)

From Stdlib Require Import String Ascii List Bool Arith Lia.
Import ListNotations.

Open Scope string_scope.
Open Scope list_scope.

(** ** Package [strings] *)

Module strings.

(** [strings.Split(s, sep)] for a separator of one byte: the substrings
    between the separators, the empty ones included; [Split("", sep)] is
    the one-element slice holding the empty string. *)
Fixpoint Split (s : string) (sep : ascii) : list string :=
  match s with
  | EmptyString => [EmptyString]
  | String c s' =>
      if Ascii.eqb c sep then EmptyString :: Split s' sep
      else match Split s' sep with
           | [] => [String c EmptyString]
           | e :: es => String c e :: es
           end
  end.

(** [strings.Join(elems, sep)]. *)
Definition Join (elems : list string) (sep : string) : string :=
  String.concat sep elems.

End strings.

(** ** Package [path/filepath], Unix flavour *)

Module filepath.

Definition Separator : ascii := "/".
Definition ListSeparator : ascii := ":".

Definition rooted (path : string) : bool :=
  match path with
  | String c _ => Ascii.eqb c Separator
  | EmptyString => false
  end.

(** The output buffer of [Clean], one path element per cell, the last
    written element first.  [dotdot] is the number of elements that a
    [..] must not remove (a leading [../..] prefix), as the index of the
    same name in the Go function. *)
Record lazybuf : Type := { buf : list string; dotdot : nat }.

Definition clean_elem (isRooted : bool) (out : lazybuf) (e : string) : lazybuf :=
  if e =? "" then out                       (* empty path element *)
  else if e =? "." then out                 (* . element *)
  else if e =? ".." then                    (* .. element *)
    if Nat.ltb (dotdot out) (List.length (buf out))
    then {| buf := tl (buf out); dotdot := dotdot out |}   (* can backtrack *)
    else if isRooted then out
    else {| buf := ".." :: buf out; dotdot := S (List.length (buf out)) |}
  else {| buf := e :: buf out; dotdot := dotdot out |}.    (* real path element *)

Definition clean_elems (isRooted : bool) (es : list string) : lazybuf :=
  fold_left (clean_elem isRooted) es {| buf := []; dotdot := 0 |}.

Definition render (isRooted : bool) (out : list string) : string :=
  match out with
  | [] => if isRooted then "/" else "."
  | _ => (if isRooted then "/" else "") ++ strings.Join (rev out) "/"
  end.

(** [filepath.Clean]: the shortest path equivalent to [path] by lexical
    processing: repeated separators collapse, [.] elements disappear, an
    inner [..] removes the element before it, a [..] at the root
    disappears, and the empty result is [.]. *)
Definition Clean (path : string) : string :=
  if path =? "" then "."
  else render (rooted path)
              (buf (clean_elems (rooted path) (strings.Split path Separator))).

(** [filepath.Join]: the elements from the first non-empty one on are
    joined with the separator and the result is cleaned; the join of
    empty elements only is the empty string. *)
Fixpoint Join (elem : list string) : string :=
  match elem with
  | [] => ""
  | e :: rest =>
      if e =? "" then Join rest
      else Clean (strings.Join elem (String Separator ""))
  end.

(** [filepath.Base]: the last element of [path], trailing separators
    removed first; [.] for the empty path and [/] for a path of
    separators only. *)
Definition Base (path : string) : string :=
  if path =? "" then "."
  else match rev (filter (fun e => negb (e =? "")) (strings.Split path Separator)) with
       | [] => "/"
       | e :: _ => e
       end.

End filepath.

(** ** Package [os]: the environment and the file system *)

Module os.

(** The environment of the process: a variable is unset ([None]) or set
    to a value, which may be empty. *)
Definition Env : Type := string -> option string.

Definition LookupEnv (env : Env) (key : string) : option string := env key.

(** [os.Getenv]: the value of the variable, empty when it is unset. *)
Definition Getenv (env : Env) (key : string) : string :=
  match env key with
  | Some v => v
  | None => ""
  end.

Definition emptyenv : Env := fun _ => None.

Definition Setenv (key value : string) (env : Env) : Env :=
  fun k => if k =? key then Some value else env k.

(** [os.TempDir] on Unix: [$TMPDIR] when it is not empty, else [/tmp]. *)
Definition TempDir (env : Env) : string :=
  if Getenv env "TMPDIR" =? "" then "/tmp" else Getenv env "TMPDIR".

(** The file system as the search sees it: whether [os.Stat] of a path
    succeeds, and the names that [ioutil.ReadDir] of a path lists
    ([None] when the listing fails). *)
Record FileSystem : Type := {
  stat : string -> bool;
  readdir : string -> option (list string)
}.

Inductive Call : Type :=
| CallStat (name : string)
| CallReadDir (dirname : string).

(** Computations that read the file system, with the calls they make in
    the order they make them. *)
Definition IO (A : Type) : Type := FileSystem -> list Call * A.

Definition ret {A} (a : A) : IO A := fun _ => ([], a).

Definition bind {A B} (m : IO A) (k : A -> IO B) : IO B :=
  fun fsys =>
    let (t1, a) := m fsys in
    let (t2, b) := k a fsys in
    (t1 ++ t2, b).

(** [os.Stat(name)], of which the callers only read the error: [true]
    when there is none. *)
Definition Stat (name : string) : IO bool :=
  fun fsys => ([CallStat name], stat fsys name).

(** [ioutil.ReadDir(dirname)]: the names of the entries. *)
Definition ReadDir (dirname : string) : IO (option (list string)) :=
  fun fsys => ([CallReadDir dirname], readdir fsys dirname).

Definition trace {A} (m : IO A) (fsys : FileSystem) : list Call := fst (m fsys).
Definition result {A} (m : IO A) (fsys : FileSystem) : A := snd (m fsys).

End os.

Notation "x <- m ;; k" := (os.bind m (fun x => k))
  (at level 61, m at next level, right associativity).

(** ** Errors *)

Inductive error : Type :=
| EnvironmentNotFound
| errorString (s : string).

(** [fmt.Errorf("file %s is not found", name)]. *)
Definition fileNotFound (name : string) : error :=
  errorString ("file " ++ name ++ " is not found").

(** A Go result [(string, error)]; [None] is the [nil] error. *)
Definition res : Type := (string * option error)%type.

(** ** The base directories *)

(** Modelled from the spec: the precedence chain shared by the package
    functions [ConfigDir], [DataDir] and [CacheDir], whose file is not part
    of the sources at hand.  The home override is used when it is set and
    non-empty; else [HOME] when it is set; else [USERPROFILE] when it is
    set; else the resolution fails with [EnvironmentNotFound]. *)
Definition baseDir (env : os.Env) (homeVar subpath : string) : res :=
  match os.LookupEnv env homeVar with
  | Some (String c v) => (String c v, None)
  | _ =>
      match os.LookupEnv env "HOME" with
      | Some h => (filepath.Join [h; subpath], None)
      | None =>
          match os.LookupEnv env "USERPROFILE" with
          | Some u => (filepath.Join [u; subpath], None)
          | None => ("", Some EnvironmentNotFound)
          end
      end
  end.

(** Modelled from the spec: the package function [ConfigDir]. *)
Definition ConfigDir (env : os.Env) : res := baseDir env "XDG_CONFIG_HOME" ".config".

(** Modelled from the spec: the package function [DataDir]. *)
Definition DataDir (env : os.Env) : res := baseDir env "XDG_DATA_HOME" ".local/share".

(** Modelled from the spec: the package function [CacheDir]. *)
Definition CacheDir (env : os.Env) : res := baseDir env "XDG_CACHE_HOME" ".cache".

(** Modelled from the spec: the package function [RuntimeDir], which cannot
    fail: [XDG_RUNTIME_DIR] when it is set and non-empty, else the
    temporary directory of the platform. *)
Definition RuntimeDir (env : os.Env) : string :=
  match os.LookupEnv env "XDG_RUNTIME_DIR" with
  | Some (String c r) => String c r
  | _ => os.TempDir env
  end.

(** ** [app.go] *)

Record App : Type := { Name : string }.

Definition NewApp (name : string) : App := {| Name := name |}.

Definition joinedPath (env : os.Env) (name : string) (f : os.Env -> res) : res :=
  match f env with
  | (_, Some err) => ("", Some err)
  | (dir, None) => (filepath.Join [dir; name], None)
  end.

Definition dirsForSearch (a : App) (first : string) (envvar : string)
    (env : os.Env) : list string :=
  fold_left (fun paths dir => paths ++ [filepath.Join [dir; Name a]])
            (strings.Split (os.Getenv env envvar) filepath.ListSeparator)
            [first].

(** The inner loop of [findFile]: the path of the first entry whose base
    name is [name]. *)
Fixpoint findEntry (dir : string) (fs : list string) (name : string) : option string :=
  match fs with
  | [] => None
  | f :: fs' =>
      if filepath.Base f =? name then Some (filepath.Join [dir; f])
      else findEntry dir fs' name
  end.

Fixpoint findFile (dirs : list string) (name : string) : os.IO res :=
  match dirs with
  | [] => os.ret ("", Some (fileNotFound name))
  | dir :: dirs' =>
      if dir =? "" then findFile dirs' name
      else
        ok <- os.Stat dir ;;
        if negb ok then findFile dirs' name
        else
          fs <- os.ReadDir dir ;;
          match fs with
          | None => findFile dirs' name
          | Some fs =>
              match findEntry dir fs name with
              | Some p => os.ret (p, None)
              | None => findFile dirs' name
              end
          end
  end.

Definition App_ConfigDir (a : App) (env : os.Env) : res :=
  joinedPath env (Name a) ConfigDir.

Definition App_ConfigFile (a : App) (name : string) (env : os.Env) : res :=
  joinedPath env name (App_ConfigDir a).

Definition App_FindConfigFile (a : App) (name : string) (env : os.Env) : os.IO res :=
  let d := fst (App_ConfigDir a env) in
  let dirs := dirsForSearch a d "XDG_CONFIG_DIRS" env in
  r <- findFile dirs name ;;
  match r with
  | (_, Some err) => os.ret ("", Some err)
  | (f, None) => os.ret (f, None)
  end.

Definition App_DataDir (a : App) (env : os.Env) : res :=
  joinedPath env (Name a) DataDir.

Definition App_DataFile (a : App) (name : string) (env : os.Env) : res :=
  joinedPath env name (App_DataDir a).

Definition App_FindDataFile (a : App) (name : string) (env : os.Env) : os.IO res :=
  let d := fst (App_DataDir a env) in
  let dirs := dirsForSearch a d "XDG_DATA_DIRS" env in
  r <- findFile dirs name ;;
  match r with
  | (_, Some err) => os.ret ("", Some err)
  | (f, None) => os.ret (f, None)
  end.

Definition App_CacheDir (a : App) (env : os.Env) : res :=
  joinedPath env (Name a) CacheDir.

Definition App_CacheFile (a : App) (name : string) (env : os.Env) : res :=
  joinedPath env name (App_CacheDir a).

Definition App_RuntimeDir (a : App) (env : os.Env) : string :=
  filepath.Join [RuntimeDir env; Name a].

Definition App_RuntimeFile (a : App) (name : string) (env : os.Env) : string :=
  filepath.Join [App_RuntimeDir a env; name].

(** The three categories whose directory can fail to resolve, and the
    accessors of [App] by category. *)
Inductive Category : Type := Config | Data | Cache.

Definition homeVar (c : Category) : string :=
  match c with
  | Config => "XDG_CONFIG_HOME"
  | Data => "XDG_DATA_HOME"
  | Cache => "XDG_CACHE_HOME"
  end.

Definition subpath (c : Category) : string :=
  match c with
  | Config => ".config"
  | Data => ".local/share"
  | Cache => ".cache"
  end.

Definition App_Dir (c : Category) : App -> os.Env -> res :=
  match c with
  | Config => App_ConfigDir
  | Data => App_DataDir
  | Cache => App_CacheDir
  end.

Definition App_File (c : Category) : App -> string -> os.Env -> res :=
  match c with
  | Config => App_ConfigFile
  | Data => App_DataFile
  | Cache => App_CacheFile
  end.

(** The categories that have a search: [Config] and [Data]. *)
Inductive SearchCategory : Type := SearchConfig | SearchData.

Definition categoryOf (c : SearchCategory) : Category :=
  match c with
  | SearchConfig => Config
  | SearchData => Data
  end.

Definition dirsVar (c : SearchCategory) : string :=
  match c with
  | SearchConfig => "XDG_CONFIG_DIRS"
  | SearchData => "XDG_DATA_DIRS"
  end.

Definition App_Find (c : SearchCategory) : App -> string -> os.Env -> os.IO res :=
  match c with
  | SearchConfig => App_FindConfigFile
  | SearchData => App_FindDataFile
  end.

(** The list of directories that [App_Find] searches. *)
Definition searchDirs (c : SearchCategory) (a : App) (env : os.Env) : list string :=
  dirsForSearch a (fst (App_Dir (categoryOf c) a env)) (dirsVar c) env.

(** ** Notions used in the statements *)

(** The bytes of [s] do not include [c]. *)
Fixpoint lacks (c : ascii) (s : string) : bool :=
  match s with
  | EmptyString => true
  | String x s' => negb (Ascii.eqb x c) && lacks c s'
  end.

(** A single path element that names a file: not empty, without a
    separator, and neither [.] nor [..]. *)
Definition isElem (e : string) : bool :=
  negb (e =? "") && negb (e =? ".") && negb (e =? "..")
  && lacks filepath.Separator e.

(** The names a directory listing returns are file names: single path
    elements, never [.] or [..]. *)
Definition listsNames (fsys : os.FileSystem) : Prop :=
  forall dir names, os.readdir fsys dir = Some names ->
    forall f, In f names -> isElem f = true.

(** The buffer of [Clean] always holds a prefix of [..] elements, which is
    empty for a rooted path, followed by file-name elements. *)
Definition canon (r : bool) (out : filepath.lazybuf) : Prop :=
  exists plains,
    filepath.buf out = rev plains ++ repeat ".." (filepath.dotdot out)
    /\ Forall (fun e => isElem e = true) plains
    /\ (r = true -> filepath.dotdot out = 0).

(** The directory [dir] yields no match for [name]: it is the empty
    string, or cannot be examined, or cannot be listed, or lists no entry
    whose base name is [name]. *)
Definition noMatch (fsys : os.FileSystem) (name dir : string) : Prop :=
  dir = ""
  \/ os.stat fsys dir = false
  \/ os.readdir fsys dir = None
  \/ exists fs, os.readdir fsys dir = Some fs
                /\ forall f, In f fs -> filepath.Base f <> name.

(** The entry [f] is the first one of [dir] whose base name is [name]. *)
Definition firstMatch (fsys : os.FileSystem) (name dir f : string) : Prop :=
  dir <> "" /\ os.stat fsys dir = true
  /\ exists fs1 fs2, os.readdir fsys dir = Some (fs1 ++ f :: fs2)
                     /\ (forall x, In x fs1 -> filepath.Base x <> name)
                     /\ filepath.Base f = name.

(** The calls the search makes on a directory it examines in full. *)
Definition visit (fsys : os.FileSystem) (dir : string) : list os.Call :=
  if (dir =? "")%string then []
  else if os.stat fsys dir then [os.CallStat dir; os.CallReadDir dir]
  else [os.CallStat dir].

(** An example file system: [/etc/xdg/app] is the only directory, and
    holds three files. *)
Definition exampleFS : os.FileSystem :=
  {| os.stat := fun p => (p =? "/etc/xdg/app")%string;
     os.readdir := fun p =>
       if (p =? "/etc/xdg/app")%string
       then Some ["Settings.toml"; "settings.toml"; "themes"]
       else None |}.

(** The list as the specification words it: the primary directory, then
    one entry for each non-empty segment of the variable. *)
Definition dirsForSearchSpec (a : App) (first : string) (envvar : string)
    (env : os.Env) : list string :=
  first :: map (fun dir => filepath.Join [dir; Name a])
             (filter (fun dir => negb (dir =? "")%string)
                (strings.Split (os.Getenv env envvar) filepath.ListSeparator)).

(** The error [err] mentions the string [s] in its message. *)
Definition mentions (err : error) (s : string) : Prop :=
  exists before after, err = errorString (before ++ s ++ after).

(** The accessors of [App], with their arguments. *)
Inductive Accessor : Type :=
| ConfigDirOf
| ConfigFileOf (name : string)
| FindConfigFileOf (name : string)
| DataDirOf
| DataFileOf (name : string)
| FindDataFileOf (name : string)
| CacheDirOf
| CacheFileOf (name : string)
| RuntimeDirOf
| RuntimeFileOf (name : string).

(** A call of an accessor: only the two searches read the file system,
    and the runtime accessors have no error to return. *)
Definition call (a : App) (acc : Accessor) (env : os.Env) : os.IO res :=
  match acc with
  | ConfigDirOf => os.ret (App_ConfigDir a env)
  | ConfigFileOf name => os.ret (App_ConfigFile a name env)
  | FindConfigFileOf name => App_FindConfigFile a name env
  | DataDirOf => os.ret (App_DataDir a env)
  | DataFileOf name => os.ret (App_DataFile a name env)
  | FindDataFileOf name => App_FindDataFile a name env
  | CacheDirOf => os.ret (App_CacheDir a env)
  | CacheFileOf name => os.ret (App_CacheFile a name env)
  | RuntimeDirOf => os.ret (App_RuntimeDir a env, None)
  | RuntimeFileOf name => os.ret (App_RuntimeFile a name env, None)
  end.

(** Two environments, or two file systems, with the same content. *)
Definition sameEnv (env env' : os.Env) : Prop := forall key, env key = env' key.

Definition sameFS (fsys fsys' : os.FileSystem) : Prop :=
  (forall p, os.stat fsys p = os.stat fsys' p)
  /\ (forall p, os.readdir fsys p = os.readdir fsys' p).

(** The number of bytes of [s] equal to [c]. *)
Fixpoint countByte (c : ascii) (s : string) : nat :=
  match s with
  | EmptyString => 0
  | String x s' => (if Ascii.eqb x c then 1 else 0) + countByte c s'
  end.

(** ** The accessors as programs over the state of the process *)

Module sys.

(** What a call can read or change: the environment, the file system, and
    the variables of the process, where a program could keep what it
    computed from one call to the next. *)
Record World : Type := {
  environ : os.Env;
  files : os.FileSystem;
  memory : string -> option string
}.

(** The operations of the process on its world, with the type of their
    answer.  The first five read the environment or the file system; the
    others change the world or read the variables of the process. *)
Inductive Op : Type -> Type :=
| LookupEnv (key : string) : Op (option string)
| Getenv (key : string) : Op string
| TempDir : Op string
| Stat (name : string) : Op bool
| ReadDir (dirname : string) : Op (option (list string))
| Setenv (key value : string) : Op unit
| Mkdir (name : string) : Op unit
| Load (cell : string) : Op (option string)
| Store (cell value : string) : Op unit.

(** A program: a result, or an operation and what follows its answer. *)
Inductive Proc (A : Type) : Type :=
| Ret (a : A)
| Do (X : Type) (op : Op X) (k : X -> Proc A).

Arguments Ret {A} a.
Arguments Do {A X} op k.

Fixpoint bind {A B : Type} (m : Proc A) (f : A -> Proc B) : Proc B :=
  match m with
  | Ret a => f a
  | Do op k => Do op (fun x => bind (k x) f)
  end.

Definition perform {X : Type} (op : Op X) : Proc X := Do op Ret.

(** The effect of one operation. *)
Definition exec {X : Type} (op : Op X) (w : World) : X * World :=
  match op in Op T return T * World with
  | LookupEnv key => (os.LookupEnv (environ w) key, w)
  | Getenv key => (os.Getenv (environ w) key, w)
  | TempDir => (os.TempDir (environ w), w)
  | Stat name => (os.stat (files w) name, w)
  | ReadDir dirname => (os.readdir (files w) dirname, w)
  | Setenv key value =>
      (tt, {| environ := os.Setenv key value (environ w);
              files := files w; memory := memory w |})
  | Mkdir name =>
      (tt, {| environ := environ w;
              files :=
                {| os.stat := fun p => (p =? name)%string || os.stat (files w) p;
                   os.readdir := fun p =>
                     if (p =? name)%string && negb (os.stat (files w) p)
                     then Some [] else os.readdir (files w) p |};
              memory := memory w |})
  | Load cell => (memory w cell, w)
  | Store cell value =>
      (tt, {| environ := environ w; files := files w;
              memory := fun c => if (c =? cell)%string then Some value
                                 else memory w c |})
  end.

(** The run of a program from a world: its result and the world it
    leaves. *)
Fixpoint run {A : Type} (m : Proc A) (w : World) : A * World :=
  match m with
  | Ret a => (a, w)
  | Do op k => let (x, w') := exec op w in run (k x) w'
  end.

(** The operations that only read the environment or the file system. *)
Definition observes {X : Type} (op : Op X) : bool :=
  match op with
  | LookupEnv _ | Getenv _ | TempDir | Stat _ | ReadDir _ => true
  | Setenv _ _ | Mkdir _ | Load _ | Store _ _ => false
  end.

(** A program that performs such operations only, whatever the answers. *)
Inductive Observes {A : Type} : Proc A -> Prop :=
| Observes_Ret (a : A) : Observes (Ret a)
| Observes_Do (X : Type) (op : Op X) (k : X -> Proc A) :
    observes op = true -> (forall x, Observes (k x)) -> Observes (Do op k).

End sys.

Notation "x <~ m ;; k" := (sys.bind m (fun x => k))
  (at level 61, m at next level, right associativity).

(** The functions of the package written as programs: each call of the
    [os] and [ioutil] packages is an operation. *)
Module prog.

(** Modelled from the spec: the precedence chain of the package functions
    [ConfigDir], [DataDir] and [CacheDir], which are not part of
    [app.go]; the chain of [baseDir], each lookup being an operation. *)
Definition baseDir (homeVar subpath : string) : sys.Proc res :=
  x <~ sys.perform (sys.LookupEnv homeVar) ;;
  match x with
  | Some (String c v) => sys.Ret (String c v, None)
  | _ =>
      h <~ sys.perform (sys.LookupEnv "HOME") ;;
      match h with
      | Some h => sys.Ret (filepath.Join [h; subpath], None)
      | None =>
          u <~ sys.perform (sys.LookupEnv "USERPROFILE") ;;
          match u with
          | Some u => sys.Ret (filepath.Join [u; subpath], None)
          | None => sys.Ret ("", Some EnvironmentNotFound)
          end
      end
  end.

(** Modelled from the spec: the package function [ConfigDir]. *)
Definition ConfigDir : sys.Proc res := baseDir "XDG_CONFIG_HOME" ".config".

(** Modelled from the spec: the package function [DataDir]. *)
Definition DataDir : sys.Proc res := baseDir "XDG_DATA_HOME" ".local/share".

(** Modelled from the spec: the package function [CacheDir]. *)
Definition CacheDir : sys.Proc res := baseDir "XDG_CACHE_HOME" ".cache".

(** Modelled from the spec: the package function [RuntimeDir]. *)
Definition RuntimeDir : sys.Proc string :=
  x <~ sys.perform (sys.LookupEnv "XDG_RUNTIME_DIR") ;;
  match x with
  | Some (String c r) => sys.Ret (String c r)
  | _ => sys.perform sys.TempDir
  end.

Definition joinedPath (name : string) (f : sys.Proc res) : sys.Proc res :=
  r <~ f ;;
  match r with
  | (_, Some err) => sys.Ret ("", Some err)
  | (dir, None) => sys.Ret (filepath.Join [dir; name], None)
  end.

Definition dirsForSearch (a : App) (first : string) (envvar : string)
    : sys.Proc (list string) :=
  v <~ sys.perform (sys.Getenv envvar) ;;
  sys.Ret (fold_left (fun paths dir => paths ++ [filepath.Join [dir; Name a]])
                     (strings.Split v filepath.ListSeparator)
                     [first]).

Fixpoint findFile (dirs : list string) (name : string) : sys.Proc res :=
  match dirs with
  | [] => sys.Ret ("", Some (fileNotFound name))
  | dir :: dirs' =>
      if (dir =? "")%string then findFile dirs' name
      else
        ok <~ sys.perform (sys.Stat dir) ;;
        if negb ok then findFile dirs' name
        else
          fs <~ sys.perform (sys.ReadDir dir) ;;
          match fs with
          | None => findFile dirs' name
          | Some fs =>
              match findEntry dir fs name with
              | Some p => sys.Ret (p, None)
              | None => findFile dirs' name
              end
          end
  end.

Definition App_ConfigDir (a : App) : sys.Proc res := joinedPath (Name a) ConfigDir.

Definition App_ConfigFile (a : App) (name : string) : sys.Proc res :=
  joinedPath name (App_ConfigDir a).

Definition App_FindConfigFile (a : App) (name : string) : sys.Proc res :=
  r <~ App_ConfigDir a ;;
  dirs <~ dirsForSearch a (fst r) "XDG_CONFIG_DIRS" ;;
  r' <~ findFile dirs name ;;
  match r' with
  | (_, Some err) => sys.Ret ("", Some err)
  | (f, None) => sys.Ret (f, None)
  end.

Definition App_DataDir (a : App) : sys.Proc res := joinedPath (Name a) DataDir.

Definition App_DataFile (a : App) (name : string) : sys.Proc res :=
  joinedPath name (App_DataDir a).

Definition App_FindDataFile (a : App) (name : string) : sys.Proc res :=
  r <~ App_DataDir a ;;
  dirs <~ dirsForSearch a (fst r) "XDG_DATA_DIRS" ;;
  r' <~ findFile dirs name ;;
  match r' with
  | (_, Some err) => sys.Ret ("", Some err)
  | (f, None) => sys.Ret (f, None)
  end.

Definition App_CacheDir (a : App) : sys.Proc res := joinedPath (Name a) CacheDir.

Definition App_CacheFile (a : App) (name : string) : sys.Proc res :=
  joinedPath name (App_CacheDir a).

Definition App_RuntimeDir (a : App) : sys.Proc string :=
  d <~ RuntimeDir ;; sys.Ret (filepath.Join [d; Name a]).

Definition App_RuntimeFile (a : App) (name : string) : sys.Proc string :=
  d <~ App_RuntimeDir a ;; sys.Ret (filepath.Join [d; name]).

(** A call of an accessor, as [call] above. *)
Definition call (a : App) (acc : Accessor) : sys.Proc res :=
  match acc with
  | ConfigDirOf => App_ConfigDir a
  | ConfigFileOf name => App_ConfigFile a name
  | FindConfigFileOf name => App_FindConfigFile a name
  | DataDirOf => App_DataDir a
  | DataFileOf name => App_DataFile a name
  | FindDataFileOf name => App_FindDataFile a name
  | CacheDirOf => App_CacheDir a
  | CacheFileOf name => App_CacheFile a name
  | RuntimeDirOf => d <~ App_RuntimeDir a ;; sys.Ret (d, None)
  | RuntimeFileOf name => d <~ App_RuntimeFile a name ;; sys.Ret (d, None)
  end.

(** A variant of [App_ConfigDir] that keeps its first result in a variable
    of the process and returns it from then on: what the package does not
    do. *)
Definition cachedConfigDir (a : App) : sys.Proc res :=
  c <~ sys.perform (sys.Load "ConfigDir") ;;
  match c with
  | Some d => sys.Ret (d, None)
  | None =>
      r <~ App_ConfigDir a ;;
      match r with
      | (_, Some err) => sys.Ret ("", Some err)
      | (d, None) => _ <~ sys.perform (sys.Store "ConfigDir" d) ;; sys.Ret (d, None)
      end
  end.

End prog.

(** * Properties *)

(** ** Strings *)

Section StringFacts.

Variable sep : ascii.

Lemma Split_not_nil (s : string) : strings.Split s sep <> [].
Proof.
  destruct s as [|c s]; simpl; [discriminate|].
  destruct (Ascii.eqb c sep); [discriminate|].
  destruct (strings.Split s sep); discriminate.
Qed.

Lemma Split_app (s t : string) :
  strings.Split (s ++ String sep t)%string sep
  = strings.Split s sep ++ strings.Split t sep.
Proof.
  induction s as [|c s IH]; simpl.
  - now rewrite Ascii.eqb_refl.
  - rewrite IH. destruct (Ascii.eqb c sep); [reflexivity|].
    destruct (strings.Split s sep) eqn:E; [|reflexivity].
    now destruct (Split_not_nil s).
Qed.

Lemma Split_lacks (s : string) :
  lacks sep s = true -> strings.Split s sep = [s].
Proof.
  induction s as [|c s IH]; simpl; [reflexivity|].
  intros H. apply andb_true_iff in H as [Hc Hs].
  apply negb_true_iff in Hc. rewrite Hc, (IH Hs). reflexivity.
Qed.

Lemma Split_In_lacks (s e : string) :
  In e (strings.Split s sep) -> lacks sep e = true.
Proof.
  revert e. induction s as [|c s IH]; simpl; intros e H.
  - destruct H as [<-|[]]. reflexivity.
  - destruct (Ascii.eqb c sep) eqn:Ec.
    + destruct H as [<-|H]; [reflexivity|now apply IH].
    + destruct (strings.Split s sep) as [|x xs].
      * destruct H as [<-|[]]. simpl. now rewrite Ec.
      * destruct H as [<-|H].
        -- simpl. rewrite Ec. simpl. apply IH. now left.
        -- apply IH. now right.
Qed.

Lemma Split_concat (es : list string) :
  es <> [] ->
  Forall (fun e => lacks sep e = true) es ->
  strings.Split (strings.Join es (String sep "")) sep = es.
Proof.
  unfold strings.Join.
  induction es as [|e es IH]; intros Hne Hall; [congruence|].
  inversion Hall as [|? ? He Hes]; subst.
  destruct es as [|e' es].
  - simpl. now apply Split_lacks.
  - change (String.concat (String sep "") (e :: e' :: es))
      with (e ++ String sep (String.concat (String sep "") (e' :: es)))%string.
    rewrite Split_app, (Split_lacks e He), IH; [reflexivity|discriminate|assumption].
Qed.

End StringFacts.

Lemma append_nil_r (s : string) : (s ++ "")%string = s.
Proof. induction s; simpl; congruence. Qed.

Lemma append_assoc (s t u : string) : ((s ++ t) ++ u = s ++ (t ++ u))%string.
Proof. induction s; simpl; congruence. Qed.

Lemma concat_snoc (sep : string) (es : list string) (e : string) :
  es <> [] ->
  String.concat sep (es ++ [e]) = (String.concat sep es ++ sep ++ e)%string.
Proof.
  induction es as [|x es IH]; intros Hne; [congruence|].
  destruct es as [|y es].
  - reflexivity.
  - change (String.concat sep ((x :: y :: es) ++ [e]))
      with (x ++ sep ++ String.concat sep ((y :: es) ++ [e]))%string.
    rewrite IH by discriminate.
    change (String.concat sep (x :: y :: es))
      with (x ++ sep ++ String.concat sep (y :: es))%string.
    now rewrite !append_assoc.
Qed.

(** ** The library functions on the cases of the Go documentation *)

Lemma Split_examples :
  strings.Split "a,b,c" "," = ["a"; "b"; "c"]
  /\ strings.Split "" ":" = [""]
  /\ strings.Split ":" ":" = [""; ""]
  /\ strings.Split "/etc/xdg:/usr/local/etc" ":" = ["/etc/xdg"; "/usr/local/etc"]
  /\ strings.Split "a::b:" ":" = ["a"; ""; "b"; ""].
Proof. repeat split. Qed.

Lemma Clean_examples :
  map filepath.Clean
    ["abc"; "abc/def"; "a/b/c"; "."; ".."; "../.."; "../../abc"; "/abc"; "/"; "";
     "abc/"; "abc/def/"; "a/b/c/"; "./"; "../"; "../../"; "/abc/";
     "abc//def//ghi"; "abc//"; "abc/./def"; "/./abc/def"; "abc/.";
     "abc/def/ghi/../jkl"; "abc/def/../ghi/../jkl"; "abc/def/.."; "abc/def/../..";
     "/abc/def/../.."; "abc/def/../../.."; "/abc/def/../../..";
     "abc/def/../../../ghi/jkl/../../../mno"; "/../abc";
     "abc/./../def"; "abc//./../def"; "abc/../../././../def"]
  = ["abc"; "abc/def"; "a/b/c"; "."; ".."; "../.."; "../../abc"; "/abc"; "/"; ".";
     "abc"; "abc/def"; "a/b/c"; "."; ".."; "../.."; "/abc";
     "abc/def/ghi"; "abc"; "abc/def"; "/abc/def"; "abc";
     "abc/def/jkl"; "abc/jkl"; "abc"; ".";
     "/"; ".."; "/";
     "../../mno"; "/abc";
     "def"; "def"; "../../def"].
Proof. reflexivity. Qed.

Lemma Join_examples :
  map filepath.Join
    [[]; [""]; ["a"]; ["a"; "b"]; ["a"; ""]; [""; "b"]; ["/"; "a"]; ["/"; "a/b"];
     ["/"; ""]; ["/a"; "b"]; ["a"; "/b"]; ["/a"; "/b"]; ["a/"; "b"]; ["a/"; ""];
     [""; ""]; ["/"; "a"; "b"]; ["//"; "a"]]
  = [""; ""; "a"; "a/b"; "a"; "b"; "/a"; "/a/b";
     "/"; "/a/b"; "a/b"; "/a/b"; "a/b"; "a";
     ""; "/a/b"; "/a"].
Proof. reflexivity. Qed.

Lemma Base_examples :
  map filepath.Base
    [""; "."; "/."; "/"; "////"; "x/"; "abc"; "abc/def"; "a/b/.x"; "a/b/c."; "a/b/c.x"]
  = ["."; "."; "."; "/"; "/"; "x"; "abc"; "def"; ".x"; "c."; "c.x"].
Proof. reflexivity. Qed.

(** ** [filepath.Clean] and [filepath.Join] *)

Lemma isElem_spec (e : string) :
  isElem e = true <->
  e <> "" /\ e <> "." /\ e <> ".." /\ lacks filepath.Separator e = true.
Proof.
  unfold isElem.
  rewrite !andb_true_iff, !negb_true_iff, !String.eqb_neq. tauto.
Qed.

Lemma lacks_rooted (e : string) :
  lacks filepath.Separator e = true -> filepath.rooted e = false.
Proof.
  destruct e as [|c e]; simpl; [reflexivity|].
  intros H. apply andb_true_iff in H as [H _]. now apply negb_true_iff in H.
Qed.

Lemma rooted_append (d s : string) :
  d <> "" -> filepath.rooted (d ++ s)%string = filepath.rooted d.
Proof. destruct d; [congruence|reflexivity]. Qed.

Lemma append_not_empty (d s : string) : d <> "" -> (d ++ s)%string <> "".
Proof. destruct d; [congruence|discriminate]. Qed.

Lemma clean_elem_push (r : bool) (out : filepath.lazybuf) (e : string) :
  isElem e = true ->
  filepath.clean_elem r out e
  = {| filepath.buf := e :: filepath.buf out; filepath.dotdot := filepath.dotdot out |}.
Proof.
  intros H. apply isElem_spec in H as (H1 & H2 & H3 & _).
  unfold filepath.clean_elem.
  apply String.eqb_neq in H1, H2, H3. now rewrite H1, H2, H3.
Qed.

Lemma canon_init (r : bool) : canon r {| filepath.buf := []; filepath.dotdot := 0 |}.
Proof. exists []. simpl. auto. Qed.

Lemma clean_elem_canon (r : bool) (out : filepath.lazybuf) (e : string) :
  lacks filepath.Separator e = true ->
  canon r out -> canon r (filepath.clean_elem r out e).
Proof.
  intros He (ps & Hb & Hps & Hr).
  unfold filepath.clean_elem.
  destruct (String.eqb_spec e "") as [|N1]; [now exists ps|].
  destruct (String.eqb_spec e ".") as [|N2]; [now exists ps|].
  destruct (String.eqb_spec e "..") as [|N3].
  - destruct (Nat.ltb_spec (filepath.dotdot out) (List.length (filepath.buf out))) as [Hlt|Hge].
    + rewrite Hb, length_app, repeat_length in Hlt.
      destruct (rev ps) as [|top rest] eqn:Erev; [simpl in Hlt; lia|].
      exists (rev rest). simpl. rewrite Hb, rev_involutive. simpl.
      repeat split; [|exact Hr].
      assert (Hin : forall x, In x rest -> isElem x = true).
      { intros x Hx. rewrite Forall_forall in Hps. apply Hps, in_rev.
        rewrite Erev. now right. }
      apply Forall_forall. intros x Hx. apply Hin. now apply in_rev.
    + rewrite Hb, length_app, length_rev, repeat_length in Hge.
      assert (ps = []) by (destruct ps; [reflexivity|simpl in Hge; lia]). subst ps.
      destruct r; [exists []; auto|].
      exists []. simpl in *. rewrite Hb. simpl. rewrite repeat_length.
      repeat split; [constructor|discriminate].
  - exists (ps ++ [e]). simpl. rewrite rev_app_distr, Hb. simpl.
    repeat split; [|exact Hr].
    apply Forall_app. split; [exact Hps|].
    constructor; [|constructor]. now apply isElem_spec.
Qed.

Lemma clean_fold_canon (r : bool) (es : list string) (out : filepath.lazybuf) :
  Forall (fun e => lacks filepath.Separator e = true) es ->
  canon r out -> canon r (fold_left (filepath.clean_elem r) es out).
Proof.
  revert out. induction es as [|e es IH]; intros out Hes Hout; [exact Hout|].
  inversion Hes; subst. simpl. apply IH; [assumption|].
  now apply clean_elem_canon.
Qed.

Lemma clean_elems_canon (r : bool) (path : string) :
  canon r (filepath.clean_elems r (strings.Split path filepath.Separator)).
Proof.
  apply clean_fold_canon; [|apply canon_init].
  apply Forall_forall. intros e He. exact (Split_In_lacks _ _ _ He).
Qed.

Lemma canon_lacks (r : bool) (out : filepath.lazybuf) :
  canon r out ->
  Forall (fun e => lacks filepath.Separator e = true) (rev (filepath.buf out)).
Proof.
  intros (ps & Hb & Hps & _). rewrite Hb. apply Forall_forall. intros e He.
  apply in_rev in He. apply in_app_or in He as [He|He].
  - apply in_rev in He. rewrite Forall_forall in Hps.
    now apply isElem_spec, Hps.
  - apply repeat_spec in He. now subst.
Qed.

Lemma clean_elem_dots (k : nat) :
  filepath.clean_elem false
    {| filepath.buf := repeat ".." k; filepath.dotdot := k |} ".."
  = {| filepath.buf := repeat ".." (S k); filepath.dotdot := S k |}.
Proof.
  unfold filepath.clean_elem.
  cbn [filepath.buf filepath.dotdot].
  rewrite repeat_length, Nat.ltb_irrefl. reflexivity.
Qed.

Lemma clean_fold_dots (n k : nat) :
  fold_left (filepath.clean_elem false) (repeat ".." n)
            {| filepath.buf := repeat ".." k; filepath.dotdot := k |}
  = {| filepath.buf := repeat ".." (n + k); filepath.dotdot := n + k |}.
Proof.
  revert k. induction n as [|n IH]; intros k; [reflexivity|].
  cbn [repeat fold_left]. rewrite clean_elem_dots, IH.
  now rewrite Nat.add_succ_r.
Qed.

Lemma clean_fold_plains (r : bool) (ps : list string) (out : filepath.lazybuf) :
  Forall (fun e => isElem e = true) ps ->
  fold_left (filepath.clean_elem r) ps out
  = {| filepath.buf := rev ps ++ filepath.buf out;
       filepath.dotdot := filepath.dotdot out |}.
Proof.
  revert out. induction ps as [|p ps IH]; intros out Hps.
  - now destruct out.
  - inversion Hps; subst. simpl. rewrite clean_elem_push by assumption.
    rewrite IH by assumption. simpl. now rewrite <- app_assoc.
Qed.

(** Cleaning the elements of a canonical buffer builds the same buffer. *)
Lemma clean_elems_canon_id (r : bool) (out : filepath.lazybuf) :
  canon r out -> filepath.clean_elems r (rev (filepath.buf out)) = out.
Proof.
  intros (ps & Hb & Hps & Hr). destruct out as [b k]. simpl in *. subst b.
  unfold filepath.clean_elems.
  rewrite rev_app_distr, rev_involutive, rev_repeat, fold_left_app.
  assert (Hd : fold_left (filepath.clean_elem r) (repeat ".." k)
                 {| filepath.buf := []; filepath.dotdot := 0 |}
               = {| filepath.buf := repeat ".." k; filepath.dotdot := k |}).
  { destruct r.
    - rewrite (Hr eq_refl). reflexivity.
    - change (@nil string) with (repeat ".." 0).
      rewrite (clean_fold_dots k 0). now rewrite Nat.add_0_r. }
  rewrite Hd, clean_fold_plains by assumption. reflexivity.
Qed.


Lemma canon_head (r : bool) (out : filepath.lazybuf) (e : string) (es : list string) :
  canon r out -> rev (filepath.buf out) = e :: es ->
  e <> "" /\ lacks filepath.Separator e = true.
Proof.
  intros Hc Hrev. pose proof (canon_lacks r out Hc) as Hl.
  rewrite Hrev in Hl. inversion Hl; subst. split; [|assumption].
  destruct Hc as (ps & Hb & Hps & _).
  assert (Hin : In e (filepath.buf out)) by (apply in_rev; rewrite Hrev; now left).
  rewrite Hb in Hin. apply in_app_or in Hin as [Hin|Hin].
  - apply in_rev in Hin. rewrite Forall_forall in Hps.
    now apply isElem_spec, Hps.
  - apply repeat_spec in Hin. subst. discriminate.
Qed.

Lemma concat_head (sep e : string) (es : list string) :
  exists t, String.concat sep (e :: es) = (e ++ t)%string.
Proof.
  destruct es as [|x es].
  - exists "". simpl. now rewrite append_nil_r.
  - now exists (sep ++ String.concat sep (x :: es))%string.
Qed.

Lemma render_not_empty (r : bool) (out : filepath.lazybuf) :
  canon r out -> filepath.render r (filepath.buf out) <> "".
Proof.
  intros Hc. unfold filepath.render.
  destruct (filepath.buf out) as [|x b] eqn:Eb; [destruct r; discriminate|].
  destruct r; [discriminate|].
  destruct (rev (x :: b)) as [|e es] eqn:Er.
  { apply (f_equal (@List.length string)) in Er.
    rewrite length_rev in Er. discriminate. }
  rewrite <- Eb in Er. destruct (canon_head _ _ _ _ Hc Er) as [Hne _].
  unfold strings.Join. destruct (concat_head "/" e es) as [t ->].
  simpl. now apply append_not_empty.
Qed.

Lemma render_rooted (r : bool) (out : filepath.lazybuf) :
  canon r out -> filepath.buf out <> [] ->
  filepath.rooted (filepath.render r (filepath.buf out)) = r.
Proof.
  intros Hc Hne. unfold filepath.render.
  destruct (filepath.buf out) as [|x b] eqn:Eb; [congruence|].
  destruct r; [reflexivity|].
  destruct (rev (x :: b)) as [|e es] eqn:Er.
  { apply (f_equal (@List.length string)) in Er.
    rewrite length_rev in Er. discriminate. }
  rewrite <- Eb in Er. destruct (canon_head _ _ _ _ Hc Er) as [Hn Hl].
  unfold strings.Join. destruct (concat_head "/" e es) as [t ->].
  simpl. rewrite rooted_append by assumption. now apply lacks_rooted.
Qed.

Lemma render_Split (r : bool) (out : filepath.lazybuf) :
  canon r out -> filepath.buf out <> [] ->
  strings.Split (filepath.render r (filepath.buf out)) filepath.Separator
  = (if r then [""] else []) ++ rev (filepath.buf out).
Proof.
  intros Hc Hne. pose proof (canon_lacks r out Hc) as Hl.
  assert (Hrev : rev (filepath.buf out) <> []).
  { intros E. apply (f_equal (@rev string)) in E.
    rewrite rev_involutive in E. now apply Hne. }
  unfold filepath.render.
  destruct (filepath.buf out) as [|x b] eqn:Eb; [congruence|].
  change filepath.Separator with "/"%char in *.
  destruct r.
  - change (strings.Split ("/" ++ strings.Join (rev (x :: b)) "/") "/")
      with ("" :: strings.Split (strings.Join (rev (x :: b)) "/") "/").
    now rewrite (Split_concat "/"%char).
  - cbn [app String.append]. now rewrite (Split_concat "/"%char).
Qed.

(** [Clean] leaves a cleaned path as it is. *)
Lemma Clean_idemp (path : string) :
  filepath.Clean (filepath.Clean path) = filepath.Clean path.
Proof.
  unfold filepath.Clean at 2 3.
  destruct (path =? "")%string; [reflexivity|].
  set (r := filepath.rooted path).
  pose proof (clean_elems_canon r path) as Hc.
  set (out := filepath.clean_elems r (strings.Split path filepath.Separator)) in *.
  destruct (filepath.buf out) as [|x b] eqn:Eb.
  - destruct r; reflexivity.
  - assert (Hne : filepath.buf out <> []) by (rewrite Eb; discriminate).
    rewrite <- Eb. unfold filepath.Clean.
    destruct (String.eqb_spec (filepath.render r (filepath.buf out)) "") as [E|_].
    { now destruct (render_not_empty r out Hc). }
    rewrite (render_rooted r out Hc Hne), (render_Split r out Hc Hne).
    assert (Hdrop : filepath.clean_elems r ((if r then [""] else []) ++ rev (filepath.buf out))
                    = filepath.clean_elems r (rev (filepath.buf out))).
    { destruct r; reflexivity. }
    rewrite Hdrop, (clean_elems_canon_id r out Hc). reflexivity.
Qed.

Lemma Clean_not_empty (path : string) : filepath.Clean path <> "".
Proof.
  unfold filepath.Clean. destruct (path =? "")%string; [discriminate|].
  apply render_not_empty, clean_elems_canon.
Qed.

Lemma render_single (r : bool) (e : string) :
  filepath.render r [e] = ((if r then "/" else "") ++ e)%string.
Proof. reflexivity. Qed.

Lemma render_push (r : bool) (b : list string) (e : string) :
  b <> [] ->
  filepath.render r (e :: b) = (filepath.render r b ++ "/" ++ e)%string.
Proof.
  intros Hne. unfold filepath.render, strings.Join.
  destruct b as [|x b]; [congruence|].
  assert (Hrev : rev (x :: b) <> []).
  { intros E. apply (f_equal (@List.length string)) in E.
    rewrite length_rev in E. discriminate. }
  change (rev (e :: x :: b)) with (rev (x :: b) ++ [e]).
  rewrite concat_snoc by assumption. now rewrite append_assoc.
Qed.

(** Appending a file-name element to a non-empty path and cleaning the
    result pushes the element on the buffer of the cleaned path. *)
Lemma Clean_snoc (d e : string) :
  d <> "" -> isElem e = true ->
  filepath.Clean (d ++ "/" ++ e)
  = filepath.render (filepath.rooted d)
      (e :: filepath.buf (filepath.clean_elems (filepath.rooted d)
                            (strings.Split d filepath.Separator))).
Proof.
  intros Hd He. unfold filepath.Clean.
  destruct (String.eqb_spec (d ++ "/" ++ e) "") as [E|_].
  { now destruct (append_not_empty d ("/" ++ e) Hd). }
  rewrite rooted_append by assumption.
  change (d ++ "/" ++ e)%string with (d ++ String filepath.Separator e)%string.
  rewrite Split_app.
  assert (Hl : lacks filepath.Separator e = true) by now apply isElem_spec.
  rewrite (Split_lacks _ e Hl).
  unfold filepath.clean_elems. rewrite fold_left_app. simpl fold_left.
  now rewrite clean_elem_push.
Qed.

Lemma Join_pair (d e : string) :
  d <> "" -> filepath.Join [d; e] = filepath.Clean (d ++ "/" ++ e).
Proof.
  intros Hd. simpl. apply String.eqb_neq in Hd. now rewrite Hd.
Qed.

Lemma Join_empty_l (e : string) :
  filepath.Join [""; e] = if (e =? "")%string then "" else filepath.Clean e.
Proof.
  simpl. destruct (e =? "")%string; [reflexivity|].
  unfold strings.Join. simpl. reflexivity.
Qed.

(** [Join] of a clean directory and a file name is their concatenation
    around a separator, but for the root and for [.]. *)
Lemma Join_elem (d e : string) :
  d <> "" -> filepath.Clean d = d -> isElem e = true ->
  filepath.Join [d; e]
  = if (d =? "/")%string then ("/" ++ e)%string
    else if (d =? ".")%string then e
    else (d ++ "/" ++ e)%string.
Proof.
  intros Hd Hc He. rewrite Join_pair, Clean_snoc by assumption.
  destruct (String.eqb_spec d "/") as [->|N1]; [reflexivity|].
  destruct (String.eqb_spec d ".") as [->|N2].
  { cbn. now rewrite append_nil_r || reflexivity. }
  assert (E : filepath.Clean d
              = filepath.render (filepath.rooted d)
                  (filepath.buf (filepath.clean_elems (filepath.rooted d)
                                   (strings.Split d filepath.Separator)))).
  { unfold filepath.Clean. apply String.eqb_neq in Hd. now rewrite Hd. }
  destruct (filepath.buf (filepath.clean_elems (filepath.rooted d)
                             (strings.Split d filepath.Separator))) as [|x b] eqn:Eb.
  - rewrite Hc in E. simpl in E. destruct (filepath.rooted d); congruence.
  - rewrite render_push by discriminate. now rewrite <- E, Hc.
Qed.

Lemma Base_elem (e : string) : isElem e = true -> filepath.Base e = e.
Proof.
  intros He. apply isElem_spec in He as (H1 & _ & _ & Hl).
  unfold filepath.Base. apply String.eqb_neq in H1. rewrite H1.
  rewrite (Split_lacks _ e Hl). simpl. now rewrite H1.
Qed.

(** The base name of [Join] of a directory and a file name is the file
    name. *)
Lemma Base_Join_elem (d e : string) :
  d <> "" -> isElem e = true -> filepath.Base (filepath.Join [d; e]) = e.
Proof.
  intros Hd He. rewrite Join_pair, Clean_snoc by assumption.
  set (r := filepath.rooted d).
  pose proof (clean_elems_canon r d) as Hc.
  set (out := filepath.clean_elems r (strings.Split d filepath.Separator)) in *.
  assert (Hl : lacks filepath.Separator e = true) by now apply isElem_spec.
  pose proof (clean_elem_canon r out e Hl Hc) as Hc'.
  rewrite clean_elem_push in Hc' by assumption.
  set (out' := {| filepath.buf := e :: filepath.buf out;
                  filepath.dotdot := filepath.dotdot out |}) in *.
  change (e :: filepath.buf out) with (filepath.buf out').
  assert (Hne : filepath.buf out' <> []) by discriminate.
  unfold filepath.Base.
  destruct (String.eqb_spec (filepath.render r (filepath.buf out')) "") as [E|_].
  { now destruct (render_not_empty r out' Hc'). }
  rewrite (render_Split r out' Hc' Hne). simpl filepath.buf.
  simpl rev. rewrite !filter_app. simpl filter.
  apply isElem_spec in He as (H1 & _). apply String.eqb_neq in H1. rewrite H1.
  simpl negb. cbv iota. rewrite !rev_app_distr. reflexivity.
Qed.

(** A non-empty name without a separator is clean. *)
Lemma Clean_lacks (n : string) :
  n <> "" -> lacks filepath.Separator n = true -> filepath.Clean n = n.
Proof.
  intros Hn Hl. unfold filepath.Clean, filepath.clean_elems.
  apply String.eqb_neq in Hn. rewrite Hn, (lacks_rooted n Hl), (Split_lacks _ n Hl).
  simpl. unfold filepath.clean_elem. rewrite Hn.
  destruct (String.eqb_spec n ".") as [->|_]; [reflexivity|].
  destruct (String.eqb_spec n "..") as [->|_]; [reflexivity|].
  simpl. reflexivity.
Qed.

Lemma rooted_Clean (path : string) :
  filepath.rooted (filepath.Clean path) = filepath.rooted path.
Proof.
  unfold filepath.Clean. destruct (String.eqb_spec path "") as [->|_]; [reflexivity|].
  pose proof (clean_elems_canon (filepath.rooted path) path) as Hc.
  destruct (filepath.buf (filepath.clean_elems (filepath.rooted path)
                            (strings.Split path filepath.Separator))) eqn:Eb.
  - destruct (filepath.rooted path); reflexivity.
  - rewrite <- Eb. apply render_rooted; [assumption|]. rewrite Eb. discriminate.
Qed.

Lemma Join_cases (elem : list string) :
  filepath.Join elem = "" \/ exists path, filepath.Join elem = filepath.Clean path.
Proof.
  induction elem as [|e es IH]; [now left|].
  simpl. destruct (e =? "")%string; [exact IH|]. right. eauto.
Qed.

Lemma Join_clean (elem : list string) :
  filepath.Join elem <> "" -> filepath.Clean (filepath.Join elem) = filepath.Join elem.
Proof.
  intros Hne. destruct (Join_cases elem) as [E|[p E]]; [congruence|].
  rewrite E. apply Clean_idemp.
Qed.

Lemma Join_pair_not_empty (d e : string) : d <> "" -> filepath.Join [d; e] <> "".
Proof. intros Hd. rewrite Join_pair by assumption. apply Clean_not_empty. Qed.

(** ** The search *)

Lemma findEntry_None (dir name : string) (fs : list string) :
  findEntry dir fs name = None <-> forall f, In f fs -> filepath.Base f <> name.
Proof.
  induction fs as [|x fs IH]; simpl.
  - split; [intros _ f []|reflexivity].
  - destruct (String.eqb_spec (filepath.Base x) name) as [E|N].
    + split; [discriminate|]. intros H. exfalso. apply (H x); auto.
    + rewrite IH. split.
      * intros H f [<-|Hf]; auto.
      * intros H f Hf. apply H. now right.
Qed.

Lemma findEntry_first (dir name : string) (fs1 fs2 : list string) (f : string) :
  (forall x, In x fs1 -> filepath.Base x <> name) ->
  filepath.Base f = name ->
  findEntry dir (fs1 ++ f :: fs2) name = Some (filepath.Join [dir; f]).
Proof.
  intros H1 Hf. induction fs1 as [|x fs1 IH]; simpl.
  - apply String.eqb_eq in Hf. now rewrite Hf.
  - assert (Hx : filepath.Base x <> name) by (apply H1; now left).
    apply String.eqb_neq in Hx. rewrite Hx. apply IH.
    intros y Hy. apply H1. now right.
Qed.

Lemma findEntry_Some (dir name p : string) (fs : list string) :
  findEntry dir fs name = Some p ->
  exists fs1 f fs2,
    fs = fs1 ++ f :: fs2
    /\ (forall x, In x fs1 -> filepath.Base x <> name)
    /\ filepath.Base f = name
    /\ p = filepath.Join [dir; f].
Proof.
  revert p. induction fs as [|x fs IH]; intros p; simpl; [discriminate|].
  destruct (String.eqb_spec (filepath.Base x) name) as [E|N].
  - intros [= <-]. exists [], x, fs. repeat split; auto.
  - intros H. destruct (IH p H) as (fs1 & f & fs2 & -> & H1 & Hf & ->).
    exists (x :: fs1), f, fs2. repeat split; auto.
    intros y [<-|Hy]; auto.
Qed.

(** One iteration of the outer loop of [findFile]. *)
Lemma findFile_cons (fsys : os.FileSystem) (dir name : string) (dirs : list string) :
  findFile (dir :: dirs) name fsys
  = let rest := findFile dirs name fsys in
    if (dir =? "")%string then rest
    else if os.stat fsys dir then
      match os.readdir fsys dir with
      | Some fs =>
          match findEntry dir fs name with
          | Some p => ([os.CallStat dir; os.CallReadDir dir], (p, None))
          | None => (os.CallStat dir :: os.CallReadDir dir :: fst rest, snd rest)
          end
      | None => (os.CallStat dir :: os.CallReadDir dir :: fst rest, snd rest)
      end
    else (os.CallStat dir :: fst rest, snd rest).
Proof.
  cbn [findFile]. cbv zeta. destruct (dir =? "")%string; [reflexivity|].
  unfold os.bind, os.Stat, os.ReadDir, os.ret.
  destruct (os.stat fsys dir); cbn [negb].
  - destruct (os.readdir fsys dir) as [fs|].
    + destruct (findEntry dir fs name); [reflexivity|].
      now destruct (findFile dirs name fsys).
    + now destruct (findFile dirs name fsys).
  - now destruct (findFile dirs name fsys).
Qed.

Lemma findFile_skip (fsys : os.FileSystem) (dir name : string) (dirs : list string) :
  noMatch fsys name dir ->
  findFile (dir :: dirs) name fsys
  = (visit fsys dir ++ fst (findFile dirs name fsys), snd (findFile dirs name fsys)).
Proof.
  intros H. rewrite findFile_cons. cbv zeta. unfold visit.
  destruct (dir =? "")%string eqn:Ed; [now destruct (findFile dirs name fsys)|].
  destruct (os.stat fsys dir) eqn:Es; [|reflexivity].
  destruct H as [H|[H|[H|(fs & H & Hfs)]]].
  - apply String.eqb_neq in Ed. congruence.
  - congruence.
  - now rewrite H.
  - rewrite H. now rewrite (proj2 (findEntry_None dir name fs) Hfs).
Qed.

Lemma findFile_hit (fsys : os.FileSystem) (dir name f : string) (dirs : list string) :
  firstMatch fsys name dir f ->
  findFile (dir :: dirs) name fsys
  = ([os.CallStat dir; os.CallReadDir dir], (filepath.Join [dir; f], None)).
Proof.
  intros (Hd & Hs & fs1 & fs2 & Hr & H1 & Hf).
  rewrite findFile_cons. cbv zeta.
  apply String.eqb_neq in Hd. rewrite Hd, Hs, Hr.
  now rewrite (findEntry_first dir name fs1 fs2 f H1 Hf).
Qed.

(** Every directory either yields no match or has a first match. *)
Lemma noMatch_or_firstMatch (fsys : os.FileSystem) (name dir : string) :
  noMatch fsys name dir \/ exists f, firstMatch fsys name dir f.
Proof.
  unfold noMatch, firstMatch.
  destruct (String.eqb_spec dir "") as [|Hd]; [now left; left|].
  destruct (os.stat fsys dir) eqn:Es; [|now left; right; left].
  destruct (os.readdir fsys dir) as [fs|] eqn:Er; [|now left; right; right; left].
  destruct (findEntry dir fs name) as [p|] eqn:Ef.
  - right. apply findEntry_Some in Ef as (fs1 & f & fs2 & -> & H1 & Hf & _).
    exists f. repeat split; auto. now exists fs1, fs2.
  - left. right. right. right. exists fs. split; [reflexivity|].
    exact (proj1 (findEntry_None dir name fs) Ef).
Qed.

Lemma noMatch_not_firstMatch (fsys : os.FileSystem) (name dir f : string) :
  noMatch fsys name dir -> firstMatch fsys name dir f -> False.
Proof.
  intros H (Hd & Hs & fs1 & fs2 & Hr & _ & Hf).
  destruct H as [H|[H|[H|(fs & H & Hfs)]]]; try congruence.
  rewrite Hr in H. injection H as <-.
  apply (Hfs f); [|assumption]. apply in_or_app. right. now left.
Qed.

Lemma findFile_prefix (fsys : os.FileSystem) (name : string) (pre rest : list string) :
  Forall (noMatch fsys name) pre ->
  findFile (pre ++ rest) name fsys
  = (flat_map (visit fsys) pre ++ fst (findFile rest name fsys),
     snd (findFile rest name fsys)).
Proof.
  induction pre as [|d pre IH]; intros H.
  - simpl. now destruct (findFile rest name fsys).
  - inversion H; subst. cbn [app flat_map].
    rewrite findFile_skip by assumption. rewrite IH by assumption.
    cbn [fst snd]. now rewrite app_assoc.
Qed.

Lemma findFile_all_skipped (fsys : os.FileSystem) (name : string) (dirs : list string) :
  Forall (noMatch fsys name) dirs ->
  findFile dirs name fsys
  = (flat_map (visit fsys) dirs, ("", Some (fileNotFound name))).
Proof.
  intros H. rewrite <- (app_nil_r dirs) at 1.
  rewrite findFile_prefix by assumption. simpl. now rewrite app_nil_r.
Qed.

(** A list of directories either holds no match at all or splits at the
    first directory that has one. *)
Lemma dirs_split (fsys : os.FileSystem) (name : string) (dirs : list string) :
  Forall (noMatch fsys name) dirs
  \/ exists pre dir post f,
       dirs = pre ++ dir :: post
       /\ Forall (noMatch fsys name) pre
       /\ firstMatch fsys name dir f.
Proof.
  induction dirs as [|d dirs IH]; [now left|].
  destruct (noMatch_or_firstMatch fsys name d) as [Hn|[f Hf]].
  - destruct IH as [IH|(pre & dir & post & f & -> & Hpre & Hf)].
    + left. now constructor.
    + right. exists (d :: pre), dir, post, f. repeat split; try apply Hf.
      now constructor.
  - right. exists [], d, dirs, f. repeat split; try apply Hf. constructor.
Qed.

Lemma findFile_found (fsys : os.FileSystem) (name : string)
    (pre post : list string) (dir f : string) :
  Forall (noMatch fsys name) pre ->
  firstMatch fsys name dir f ->
  findFile (pre ++ dir :: post) name fsys
  = (flat_map (visit fsys) pre ++ [os.CallStat dir; os.CallReadDir dir],
     (filepath.Join [dir; f], None)).
Proof.
  intros Hpre Hf. rewrite findFile_prefix by assumption.
  now rewrite (findFile_hit fsys dir name f post Hf).
Qed.

(** When the search fails, it has examined every non-empty entry. *)
Lemma visit_stat (fsys : os.FileSystem) (e : string) :
  e <> "" -> In (os.CallStat e) (visit fsys e).
Proof.
  intros He. unfold visit. apply String.eqb_neq in He. rewrite He.
  destruct (os.stat fsys e); now left.
Qed.

Lemma fold_left_snoc_map {A B : Type} (f : A -> B) (xs : list A) (acc : list B) :
  fold_left (fun ys x => ys ++ [f x]) xs acc = acc ++ map f xs.
Proof.
  revert acc. induction xs as [|x xs IH]; intros acc; simpl.
  - now rewrite app_nil_r.
  - rewrite IH, <- app_assoc. reflexivity.
Qed.

Lemma dirsForSearch_eq (a : App) (first envvar : string) (env : os.Env) :
  dirsForSearch a first envvar env
  = first :: map (fun dir => filepath.Join [dir; Name a])
                 (strings.Split (os.Getenv env envvar) filepath.ListSeparator).
Proof. unfold dirsForSearch. now rewrite fold_left_snoc_map. Qed.

Lemma App_Find_findFile (c : SearchCategory) (a : App) (name : string)
    (env : os.Env) (fsys : os.FileSystem) :
  App_Find c a name env fsys = findFile (searchDirs c a env) name fsys.
Proof.
  assert (H : forall dirs,
             os.bind (findFile dirs name)
               (fun r => match r with
                         | (_, Some err) => os.ret ("", Some err)
                         | (f, None) => os.ret (f, None)
                         end) fsys
             = findFile dirs name fsys).
  { intros dirs. unfold os.bind.
    destruct (dirs_split fsys name dirs)
      as [Hall|(pre & dir & post & f & -> & Hpre & Hf)].
    - rewrite (findFile_all_skipped _ _ _ Hall). simpl. now rewrite app_nil_r.
    - rewrite (findFile_found _ _ _ _ _ _ Hpre Hf). simpl. now rewrite app_nil_r. }
  destruct c; apply H.
Qed.

Lemma baseDir_ok (env : os.Env) (homeVar sub dir : string) :
  sub <> "" -> baseDir env homeVar sub = (dir, None) -> dir <> "".
Proof.
  intros Hsub. unfold baseDir, os.LookupEnv.
  assert (HJ : forall h, filepath.Join [h; sub] <> "").
  { intros h. simpl. destruct (h =? "")%string.
    - apply String.eqb_neq in Hsub. rewrite Hsub. apply Clean_not_empty.
    - apply Clean_not_empty. }
  destruct (env homeVar) as [[|c v]|].
  2: { intros [= <-]. discriminate. }
  all: destruct (env "HOME") as [h|]; [intros [= <-]; apply HJ|];
       destruct (env "USERPROFILE") as [u|]; [intros [= <-]; apply HJ|discriminate].
Qed.

Lemma joinedPath_ok (env : os.Env) (name : string) (f : os.Env -> res) (p : string) :
  joinedPath env name f = (p, None) ->
  exists dir, f env = (dir, None) /\ p = filepath.Join [dir; name].
Proof.
  unfold joinedPath. destruct (f env) as [dir [err|]]; [discriminate|].
  intros [= <-]. now exists dir.
Qed.

Lemma joinedPath_err (env : os.Env) (name : string) (f : os.Env -> res)
    (p : string) (err : error) :
  joinedPath env name f = (p, Some err) ->
  p = "" /\ exists s, f env = (s, Some err).
Proof.
  unfold joinedPath. destruct (f env) as [dir [e|]]; [|discriminate].
  intros [= <- <-]. split; [reflexivity|]. now exists dir.
Qed.

Lemma App_Dir_unfold (c : Category) (a : App) (env : os.Env) :
  App_Dir c a env = joinedPath env (Name a) (fun e => baseDir e (homeVar c) (subpath c)).
Proof. destruct c; reflexivity. Qed.

Lemma App_File_unfold (c : Category) (a : App) (name : string) (env : os.Env) :
  App_File c a name env = joinedPath env name (App_Dir c a).
Proof. destruct c; reflexivity. Qed.

Lemma subpath_not_empty (c : Category) : subpath c <> "".
Proof. destruct c; discriminate. Qed.

(** A directory that resolves is a non-empty, clean path. *)
Lemma App_Dir_ok (c : Category) (a : App) (env : os.Env) (d : string) :
  App_Dir c a env = (d, None) -> d <> "" /\ filepath.Clean d = d.
Proof.
  rewrite App_Dir_unfold. intros H.
  apply joinedPath_ok in H as (base & Hb & ->).
  apply baseDir_ok in Hb; [|apply subpath_not_empty].
  pose proof (Join_pair_not_empty base (Name a) Hb) as Hne.
  split; [assumption|]. now apply Join_clean.
Qed.

Lemma App_Dir_err (c : Category) (a : App) (env : os.Env) (s : string) (err : error) :
  App_Dir c a env = (s, Some err) -> s = "".
Proof.
  rewrite App_Dir_unfold. intros H. now apply joinedPath_err in H as [-> _].
Qed.

(** * The claims *)

(** ** Directory accessors *)

Lemma baseDir_override (env : os.Env) (homeVar sub v : string) :
  env homeVar = Some v -> v <> "" -> baseDir env homeVar sub = (v, None).
Proof.
  intros E Hv. unfold baseDir, os.LookupEnv. rewrite E.
  destruct v; [congruence|reflexivity].
Qed.

Lemma baseDir_fallback (env : os.Env) (homeVar sub : string) :
  env homeVar = None \/ env homeVar = Some "" ->
  baseDir env homeVar sub
  = match env "HOME" with
    | Some h => (filepath.Join [h; sub], None)
    | None =>
        match env "USERPROFILE" with
        | Some u => (filepath.Join [u; sub], None)
        | None => ("", Some EnvironmentNotFound)
        end
    end.
Proof. unfold baseDir, os.LookupEnv. now intros [-> | ->]. Qed.

(** C1.  For every application name and every category among Config, Data
    and Cache, the directory accessor follows the precedence chain: the
    home override of the category, when it is set and non-empty, joined
    with the name, whatever HOME and USERPROFILE are; else HOME, when it
    is set, joined with the conventional subpath of the category and with
    the name; else USERPROFILE, when it is set, in the same way; else the
    failure EnvironmentNotFound. *)
Theorem App_Dir_precedence (c : Category) (a : App) (env : os.Env) :
  (forall v, env (homeVar c) = Some v -> v <> "" ->
     App_Dir c a env = (filepath.Join [v; Name a], None))
  /\ (forall h, env (homeVar c) = None \/ env (homeVar c) = Some "" ->
        env "HOME" = Some h ->
        App_Dir c a env
        = (filepath.Join [filepath.Join [h; subpath c]; Name a], None))
  /\ (forall u, env (homeVar c) = None \/ env (homeVar c) = Some "" ->
        env "HOME" = None -> env "USERPROFILE" = Some u ->
        App_Dir c a env
        = (filepath.Join [filepath.Join [u; subpath c]; Name a], None))
  /\ (env (homeVar c) = None \/ env (homeVar c) = Some "" ->
        env "HOME" = None -> env "USERPROFILE" = None ->
        App_Dir c a env = ("", Some EnvironmentNotFound)).
Proof.
  rewrite App_Dir_unfold. unfold joinedPath. split; [|split; [|split]].
  - intros v E Hv. now rewrite (baseDir_override _ _ _ _ E Hv).
  - intros h Hx Hh. now rewrite (baseDir_fallback _ _ _ Hx), Hh.
  - intros u Hx Hh Hu. now rewrite (baseDir_fallback _ _ _ Hx), Hh, Hu.
  - intros Hx Hh Hu. now rewrite (baseDir_fallback _ _ _ Hx), Hh, Hu.
Qed.

Lemma App_Dir_precedence_witness :
  App_Dir Config (NewApp "app")
    (os.Setenv "XDG_CONFIG_HOME" "/xdg" (os.Setenv "HOME" "/home/u" os.emptyenv))
  = ("/xdg/app", None)
  /\ App_Dir Data (NewApp "app")
       (os.Setenv "XDG_DATA_HOME" "" (os.Setenv "HOME" "/home/u" os.emptyenv))
     = ("/home/u/.local/share/app", None)
  /\ App_Dir Cache (NewApp "app") (os.Setenv "USERPROFILE" "/Users/u" os.emptyenv)
     = ("/Users/u/.cache/app", None)
  /\ App_Dir Config (NewApp "app") os.emptyenv = ("", Some EnvironmentNotFound).
Proof.
  split; [|split; [|split]].
  - apply (proj1 (App_Dir_precedence Config (NewApp "app")
             (os.Setenv "XDG_CONFIG_HOME" "/xdg" (os.Setenv "HOME" "/home/u" os.emptyenv)))
             "/xdg"); [reflexivity|discriminate].
  - apply (proj1 (proj2 (App_Dir_precedence Data (NewApp "app")
             (os.Setenv "XDG_DATA_HOME" "" (os.Setenv "HOME" "/home/u" os.emptyenv))))
             "/home/u"); [right; reflexivity|reflexivity].
  - apply (proj1 (proj2 (proj2 (App_Dir_precedence Cache (NewApp "app")
             (os.Setenv "USERPROFILE" "/Users/u" os.emptyenv))))
             "/Users/u"); [left; reflexivity|reflexivity|reflexivity].
  - apply (proj2 (proj2 (proj2 (App_Dir_precedence Config (NewApp "app") os.emptyenv))));
      [left; reflexivity|reflexivity|reflexivity].
Defined.

Lemma RuntimeDir_not_empty (env : os.Env) : RuntimeDir env <> "".
Proof.
  unfold RuntimeDir, os.LookupEnv, os.TempDir.
  assert (H : (if (os.Getenv env "TMPDIR" =? "")%string
               then "/tmp" else os.Getenv env "TMPDIR") <> "").
  { destruct (String.eqb_spec (os.Getenv env "TMPDIR") ""); [discriminate|assumption]. }
  destruct (env "XDG_RUNTIME_DIR") as [[|c r]|]; try exact H. discriminate.
Qed.

(** C4.  The runtime directory accessor never fails: its result is a
    path, without an error, and a non-empty one.  It is XDG_RUNTIME_DIR
    joined with the application name when the variable is set (to a
    non-empty value, as the base resolver reads it), and otherwise the
    temporary directory of the platform joined with the name.  RuntimeFile
    never fails either and is the runtime directory joined with the file
    name. *)
Theorem App_RuntimeDir_total (a : App) (name : string) (env : os.Env) :
  (forall r, env "XDG_RUNTIME_DIR" = Some r -> r <> "" ->
     App_RuntimeDir a env = filepath.Join [r; Name a])
  /\ (env "XDG_RUNTIME_DIR" = None \/ env "XDG_RUNTIME_DIR" = Some "" ->
      App_RuntimeDir a env = filepath.Join [os.TempDir env; Name a])
  /\ App_RuntimeFile a name env = filepath.Join [App_RuntimeDir a env; name]
  /\ App_RuntimeDir a env <> ""
  /\ App_RuntimeFile a name env <> "".
Proof.
  unfold App_RuntimeFile, App_RuntimeDir.
  pose proof (Join_pair_not_empty _ (Name a) (RuntimeDir_not_empty env)) as Hd.
  split; [|split; [|split; [reflexivity|split]]].
  - intros r E Hr. unfold RuntimeDir, os.LookupEnv. rewrite E.
    destruct r; [congruence|reflexivity].
  - unfold RuntimeDir, os.LookupEnv. now intros [-> | ->].
  - exact Hd.
  - now apply Join_pair_not_empty.
Qed.

Lemma App_RuntimeDir_total_witness :
  App_RuntimeDir (NewApp "app") (os.Setenv "XDG_RUNTIME_DIR" "/run/user/1000" os.emptyenv)
  = "/run/user/1000/app"
  /\ App_RuntimeDir (NewApp "app") os.emptyenv = "/tmp/app"
  /\ App_RuntimeFile (NewApp "app") "app.sock" os.emptyenv = "/tmp/app/app.sock".
Proof.
  split; [|split].
  - apply (proj1 (App_RuntimeDir_total (NewApp "app") "app.sock"
             (os.Setenv "XDG_RUNTIME_DIR" "/run/user/1000" os.emptyenv))
             "/run/user/1000"); [reflexivity|discriminate].
  - apply (proj1 (proj2 (App_RuntimeDir_total (NewApp "app") "app.sock" os.emptyenv))).
    left; reflexivity.
  - apply (proj1 (proj2 (proj2 (App_RuntimeDir_total (NewApp "app") "app.sock" os.emptyenv)))).
Defined.

(** ** File accessors *)

(** C5, as stated, fails: the file accessor cleans the joined path, so a
    file name that is not a plain element is not appended as it is.  Here
    the name [../shared.toml] leaves the directory of the application. *)
Lemma App_File_not_concat :
  ~ (forall (c : Category) (a : App) (name : string) (env : os.Env) (d : string),
        App_Dir c a env = (d, None) ->
        App_File c a name env = ((d ++ "/" ++ name)%string, None)).
Proof.
  intros H.
  specialize (H Config (NewApp "app") "../shared.toml"
                (os.Setenv "HOME" "/home/u" os.emptyenv)
                "/home/u/.config/app" eq_refl).
  vm_compute in H. discriminate H.
Qed.

(** C5, amended.  For every category, Runtime included, and every file
    name, whenever the directory accessor succeeds with the path [d] (the
    runtime directory accessor always does), the file accessor returns
    [filepath.Join] of [d] and the name, that is the lexically cleaned
    join; for a name that is a single file-name element (not empty,
    without a separator, neither [.] nor [..]) this is exactly
    [d ++ "/" ++ name], but for the directories [/] and [.], where no
    separator is doubled or added.  Whenever the directory accessor fails,
    the file accessor returns that same failure unchanged. *)
Theorem App_File_join (c : Category) (a : App) (name : string) (env : os.Env) :
  (forall d, App_Dir c a env = (d, None) ->
     App_File c a name env = (filepath.Join [d; name], None)
     /\ (isElem name = true ->
         filepath.Join [d; name]
         = if (d =? "/")%string then ("/" ++ name)%string
           else if (d =? ".")%string then name
           else (d ++ "/" ++ name)%string))
  /\ (forall s err, App_Dir c a env = (s, Some err) ->
        App_File c a name env = App_Dir c a env
        /\ App_File c a name env = ("", Some err))
  /\ (App_RuntimeFile a name env = filepath.Join [App_RuntimeDir a env; name]
      /\ (isElem name = true ->
          App_RuntimeFile a name env
          = if (App_RuntimeDir a env =? "/")%string then ("/" ++ name)%string
            else if (App_RuntimeDir a env =? ".")%string then name
            else (App_RuntimeDir a env ++ "/" ++ name)%string)).
Proof.
  rewrite App_File_unfold. unfold joinedPath. split; [|split].
  - intros d Hd. rewrite Hd. split; [reflexivity|].
    intros Hn. destruct (App_Dir_ok c a env d Hd) as [Hne Hc].
    now apply Join_elem.
  - intros s err Hs. rewrite Hs. rewrite (App_Dir_err c a env s err Hs).
    now split.
  - split; [reflexivity|]. intros Hn. unfold App_RuntimeFile.
    assert (Hne : App_RuntimeDir a env <> "").
    { apply Join_pair_not_empty, RuntimeDir_not_empty. }
    apply Join_elem; [exact Hne| |exact Hn].
    unfold App_RuntimeDir in *. now apply Join_clean.
Qed.

Lemma App_File_join_witness :
  (App_File Config (NewApp "app") "settings.toml"
     (os.Setenv "HOME" "/home/u" os.emptyenv)
   = ("/home/u/.config/app/settings.toml", None)
   /\ filepath.Join ["/home/u/.config/app"; "settings.toml"]
      = "/home/u/.config/app/settings.toml")
  /\ App_File Data (NewApp "app") "db" os.emptyenv = ("", Some EnvironmentNotFound)
  /\ App_RuntimeFile (NewApp "app") "app.sock" os.emptyenv = "/tmp/app/app.sock".
Proof.
  split; [|split].
  - destruct (proj1 (App_File_join Config (NewApp "app") "settings.toml"
                       (os.Setenv "HOME" "/home/u" os.emptyenv))
                "/home/u/.config/app" eq_refl) as [H1 H2].
    split; [exact H1|exact (H2 eq_refl)].
  - exact (proj2 (proj1 (proj2 (App_File_join Data (NewApp "app") "db" os.emptyenv))
                    "" EnvironmentNotFound eq_refl)).
  - exact (proj2 (proj2 (proj2 (App_File_join Config (NewApp "app") "app.sock"
                                  os.emptyenv))) eq_refl).
Defined.

(** ** The list of search directories *)

(** C3.  The code makes an entry for every segment, the empty ones
    included: with XDG_CONFIG_DIRS unset, or with a doubled separator in
    it, the list holds the entry [app] next to the entries that the
    specification words. *)
Theorem dirsForSearch_keeps_empty_segments :
  let a := NewApp "app" in
  let env := os.Setenv "HOME" "/home/u" os.emptyenv in
  let env' := os.Setenv "XDG_CONFIG_DIRS" "/etc/xdg::/opt/etc" env in
  searchDirs SearchConfig a env = ["/home/u/.config/app"; "app"]
  /\ dirsForSearchSpec a "/home/u/.config/app" "XDG_CONFIG_DIRS" env
     = ["/home/u/.config/app"]
  /\ searchDirs SearchConfig a env'
     = ["/home/u/.config/app"; "/etc/xdg/app"; "app"; "/opt/etc/app"]
  /\ dirsForSearchSpec a "/home/u/.config/app" "XDG_CONFIG_DIRS" env'
     = ["/home/u/.config/app"; "/etc/xdg/app"; "/opt/etc/app"].
Proof. cbv zeta. split; [|split; [|split]]; reflexivity. Qed.

(** Where the variable has no empty segment, the list is the one that the
    specification words. *)
Lemma dirsForSearch_matches_spec (a : App) (first envvar : string) (env : os.Env) :
  ~ In "" (strings.Split (os.Getenv env envvar) filepath.ListSeparator) ->
  dirsForSearch a first envvar env = dirsForSearchSpec a first envvar env.
Proof.
  intros H. rewrite dirsForSearch_eq. unfold dirsForSearchSpec. f_equal. f_equal.
  induction (strings.Split (os.Getenv env envvar) filepath.ListSeparator)
    as [|s segs IH]; [reflexivity|].
  simpl. destruct (String.eqb_spec s "") as [->|_].
  - exfalso. apply H. now left.
  - simpl. f_equal. apply IH. intros Hin. apply H. now right.
Qed.

(** ** The search *)

Lemma visit_calls (fsys : os.FileSystem) (dirs : list string) (call : os.Call) :
  In call (flat_map (visit fsys) dirs) ->
  exists d, In d dirs /\ (call = os.CallStat d \/ call = os.CallReadDir d).
Proof.
  intros H. apply in_flat_map in H as (d & Hd & Hc). exists d. split; [assumption|].
  unfold visit in Hc. destruct (d =? "")%string; [destruct Hc|].
  destruct (os.stat fsys d); simpl in Hc; intuition auto.
Qed.

(** C2.  The search goes through the directories in the order of the
    list: when the directories [pre] before [dir] yield no match and [f] is
    the first entry of [dir] whose base name equals the requested name
    (equality of strings, byte for byte), the search returns the joined
    path of [dir] and [f] without an error, whatever follows [dir] in the
    list; the calls it makes are those on [pre] followed by the two on
    [dir], so that no directory after [dir] is consulted. *)
Theorem findFile_first_match (fsys : os.FileSystem) (name : string)
    (pre post : list string) (dir f : string) :
  Forall (noMatch fsys name) pre ->
  firstMatch fsys name dir f ->
  findFile (pre ++ dir :: post) name fsys
  = (flat_map (visit fsys) pre ++ [os.CallStat dir; os.CallReadDir dir],
     (filepath.Join [dir; f], None))
  /\ forall call, In call (os.trace (findFile (pre ++ dir :: post) name) fsys) ->
       exists d, In d (pre ++ [dir])
                 /\ (call = os.CallStat d \/ call = os.CallReadDir d).
Proof.
  intros Hpre Hf. pose proof (findFile_found fsys name pre post dir f Hpre Hf) as E.
  split; [exact E|].
  unfold os.trace. rewrite E. cbn [fst]. intros call Hc.
  apply in_app_or in Hc as [Hc|Hc].
  - destruct (visit_calls fsys pre call Hc) as (d & Hd & Hcall).
    exists d. split; [apply in_or_app; now left|assumption].
  - exists dir. split; [apply in_or_app; right; now left|].
    destruct Hc as [<-|[<-|[]]]; auto.
Qed.

Lemma findFile_first_match_witness :
  findFile ["/home/u/.config/app"; "/etc/xdg/app"; "app"] "settings.toml" exampleFS
  = ([os.CallStat "/home/u/.config/app";
      os.CallStat "/etc/xdg/app"; os.CallReadDir "/etc/xdg/app"],
     ("/etc/xdg/app/settings.toml", None)).
Proof.
  refine (proj1 (findFile_first_match exampleFS "settings.toml"
                   ["/home/u/.config/app"] ["app"] "/etc/xdg/app" "settings.toml" _ _)).
  - constructor; [|constructor]. right. left. reflexivity.
  - split; [discriminate|]. split; [reflexivity|].
    exists ["Settings.toml"], ["themes"]. split; [reflexivity|]. split; [|reflexivity].
    intros x [<-|[]]. vm_compute. discriminate.
Defined.

(** C6.  An entry that is the empty string, a directory that [os.Stat]
    rejects and a directory whose listing fails are each skipped, and the
    scan goes on with the rest of the list.  When the directory of the
    category does not resolve, the list of search directories still starts
    with its entry, the empty string, and the search is the search of the
    remaining directories. *)
Theorem findFile_skips_unusable (fsys : os.FileSystem) (name dir : string)
    (dirs : list string) :
  (dir = "" -> findFile (dir :: dirs) name fsys = findFile dirs name fsys)
  /\ (dir <> "" -> os.stat fsys dir = false ->
      findFile (dir :: dirs) name fsys
      = (os.CallStat dir :: os.trace (findFile dirs name) fsys,
         os.result (findFile dirs name) fsys))
  /\ (dir <> "" -> os.stat fsys dir = true -> os.readdir fsys dir = None ->
      findFile (dir :: dirs) name fsys
      = (os.CallStat dir :: os.CallReadDir dir :: os.trace (findFile dirs name) fsys,
         os.result (findFile dirs name) fsys))
  /\ (forall (c : SearchCategory) (a : App) (env : os.Env) (s : string) (err : error),
        App_Dir (categoryOf c) a env = (s, Some err) ->
        let others := map (fun seg => filepath.Join [seg; Name a])
                          (strings.Split (os.Getenv env (dirsVar c))
                                         filepath.ListSeparator) in
        searchDirs c a env = "" :: others
        /\ App_Find c a name env fsys = findFile others name fsys).
Proof.
  unfold os.trace, os.result. split; [|split; [|split]].
  - intros ->. now rewrite findFile_cons.
  - intros Hd Hs. rewrite findFile_cons. cbv zeta.
    apply String.eqb_neq in Hd. now rewrite Hd, Hs.
  - intros Hd Hs Hr. rewrite findFile_cons. cbv zeta.
    apply String.eqb_neq in Hd. now rewrite Hd, Hs, Hr.
  - intros c a env s err Hs.
    set (others := map (fun seg => filepath.Join [seg; Name a])
                       (strings.Split (os.Getenv env (dirsVar c))
                                      filepath.ListSeparator)).
    assert (E : searchDirs c a env = "" :: others).
    { unfold searchDirs. rewrite dirsForSearch_eq, Hs.
      now rewrite (App_Dir_err _ _ _ _ _ Hs). }
    split; [exact E|].
    rewrite App_Find_findFile, E. now rewrite findFile_cons.
Qed.

Lemma findFile_skips_unusable_witness :
  findFile [""; "/etc/xdg/app"] "themes" exampleFS
  = findFile ["/etc/xdg/app"] "themes" exampleFS
  /\ os.result (findFile ["/home/u/.config/app"; "/etc/xdg/app"] "themes") exampleFS
     = ("/etc/xdg/app/themes", None)
  /\ os.result (findFile ["/srv"; "/etc/xdg/app"] "themes")
       {| os.stat := fun _ => true; os.readdir := os.readdir exampleFS |}
     = ("/etc/xdg/app/themes", None)
  /\ os.result (App_FindConfigFile (NewApp "app") "themes"
                  (os.Setenv "XDG_CONFIG_DIRS" "/etc/xdg" os.emptyenv)) exampleFS
     = ("/etc/xdg/app/themes", None).
Proof.
  split; [|split; [|split]].
  - exact (proj1 (findFile_skips_unusable exampleFS "themes" "" ["/etc/xdg/app"]) eq_refl).
  - pose proof (proj1 (proj2 (findFile_skips_unusable exampleFS "themes"
                                 "/home/u/.config/app" ["/etc/xdg/app"]))) as H.
    unfold os.result. rewrite H; [reflexivity|discriminate|reflexivity].
  - pose proof (proj1 (proj2 (proj2 (findFile_skips_unusable
                  {| os.stat := fun _ => true; os.readdir := os.readdir exampleFS |}
                  "themes" "/srv" ["/etc/xdg/app"])))) as H.
    unfold os.result. rewrite H; [reflexivity|discriminate|reflexivity|reflexivity].
  - pose proof (proj2 (proj2 (proj2 (findFile_skips_unusable exampleFS "themes" "" [])))
                  SearchConfig (NewApp "app")
                  (os.Setenv "XDG_CONFIG_DIRS" "/etc/xdg" os.emptyenv)
                  "" EnvironmentNotFound eq_refl) as [_ H].
    unfold os.result. simpl App_Find in H. rewrite H. reflexivity.
Defined.

(** C7.  When no directory of the list yields a matching entry, the
    search fails with the error [file <name> is not found], which mentions
    the requested name, and an empty path; and the search fails in no
    other case: whenever it returns an error, no directory of the list
    yields a match and the error is that one. *)
Theorem findFile_not_found_iff (fsys : os.FileSystem) (dirs : list string)
    (name : string) :
  (Forall (noMatch fsys name) dirs ->
     os.result (findFile dirs name) fsys = ("", Some (fileNotFound name)))
  /\ (forall p err, os.result (findFile dirs name) fsys = (p, Some err) ->
        Forall (noMatch fsys name) dirs /\ err = fileNotFound name)
  /\ mentions (fileNotFound name) name
  /\ (forall (c : SearchCategory) (a : App) (env : os.Env),
        os.result (App_Find c a name env) fsys
        = os.result (findFile (searchDirs c a env) name) fsys).
Proof.
  unfold os.result. split; [|split; [|split]].
  - intros H. now rewrite (findFile_all_skipped fsys name dirs H).
  - intros p err H.
    destruct (dirs_split fsys name dirs)
      as [Hall|(pre & dir & post & f & -> & Hpre & Hf)].
    + split; [assumption|].
      rewrite (findFile_all_skipped fsys name dirs Hall) in H. simpl in H. congruence.
    + rewrite (findFile_found fsys name pre post dir f Hpre Hf) in H.
      simpl in H. discriminate.
  - now exists "file ", " is not found".
  - intros c a env. now rewrite App_Find_findFile.
Qed.

Lemma findFile_not_found_iff_witness :
  os.result (findFile [""; "/home/u/.config/app"; "/etc/xdg/app"] "settings.yaml")
    exampleFS
  = ("", Some (errorString "file settings.yaml is not found")).
Proof.
  apply (proj1 (findFile_not_found_iff exampleFS
                  [""; "/home/u/.config/app"; "/etc/xdg/app"] "settings.yaml")).
  constructor; [now left|].
  constructor; [right; left; reflexivity|].
  constructor; [|constructor].
  right. right. right. exists ["Settings.toml"; "settings.toml"; "themes"].
  split; [reflexivity|].
  intros f [<-|[<-|[<-|[]]]]; vm_compute; discriminate.
Defined.

(** C10.  Whenever FindConfigFile or FindDataFile returns without an
    error, the returned path is the join of a directory of the search list
    with an entry of that directory whose base name equals the requested
    name; over a file system whose listings hold file names, the entry is
    the requested name and the last element of the returned path is the
    requested name.  Whenever they return an error, the returned path is
    the empty string. *)
Theorem App_Find_result (c : SearchCategory) (a : App) (name : string)
    (env : os.Env) (fsys : os.FileSystem) (p : string) (err : option error) :
  os.result (App_Find c a name env) fsys = (p, err) ->
  (err = None ->
     exists d f fs,
       In d (searchDirs c a env)
       /\ os.readdir fsys d = Some fs /\ In f fs
       /\ filepath.Base f = name
       /\ p = filepath.Join [d; f]
       /\ (listsNames fsys -> f = name /\ filepath.Base p = name))
  /\ (err <> None -> p = "").
Proof.
  unfold os.result. rewrite App_Find_findFile.
  destruct (dirs_split fsys name (searchDirs c a env))
    as [Hall|(pre & dir & post & f & -> & Hpre & Hf)].
  - rewrite (findFile_all_skipped fsys name _ Hall). simpl. intros [= <- <-].
    split; [discriminate|reflexivity].
  - rewrite (findFile_found fsys name pre post dir f Hpre Hf). simpl.
    intros [= <- <-]. split; [|congruence]. intros _.
    destruct Hf as (Hd & Hs & fs1 & fs2 & Hr & H1 & Hb).
    exists dir, f, (fs1 ++ f :: fs2).
    assert (Hin : In f (fs1 ++ f :: fs2)) by (apply in_or_app; right; now left).
    split; [apply in_or_app; right; now left|].
    split; [assumption|]. split; [assumption|]. split; [assumption|].
    split; [reflexivity|].
    intros Hnames. pose proof (Hnames dir _ Hr f Hin) as He.
    rewrite (Base_elem f He) in Hb. subst f.
    split; [reflexivity|]. now apply Base_Join_elem.
Qed.

Lemma exampleFS_listsNames : listsNames exampleFS.
Proof.
  intros dir names H f Hf. simpl in H.
  destruct (dir =? "/etc/xdg/app")%string; [|discriminate].
  injection H as <-. destruct Hf as [<-|[<-|[<-|[]]]]; reflexivity.
Qed.

Lemma App_Find_result_witness :
  filepath.Base "/etc/xdg/app/settings.toml" = "settings.toml"
  /\ fst (os.result (App_Find SearchData (NewApp "app") "cache.db" os.emptyenv)
            exampleFS) = "".
Proof.
  split.
  - destruct (proj1 (App_Find_result SearchConfig (NewApp "app") "settings.toml"
                       (os.Setenv "XDG_CONFIG_DIRS" "/etc/xdg" os.emptyenv) exampleFS
                       "/etc/xdg/app/settings.toml" None eq_refl) eq_refl)
      as (d & f & fs & _ & _ & _ & _ & _ & H).
    exact (proj2 (H exampleFS_listsNames)).
  - assert (Herr : Some (fileNotFound "cache.db") <> None) by discriminate.
    exact (proj2 (App_Find_result SearchData (NewApp "app") "cache.db"
                    os.emptyenv exampleFS
                    (fst (os.result (App_Find SearchData (NewApp "app") "cache.db"
                                       os.emptyenv) exampleFS))
                    (Some (fileNotFound "cache.db")) eq_refl) Herr).
Defined.

(** ** Empty segments of the search variable *)

Lemma Split_unset (env : os.Env) (envvar : string) :
  env envvar = None \/ env envvar = Some "" ->
  In "" (strings.Split (os.Getenv env envvar) filepath.ListSeparator).
Proof. unfold os.Getenv. intros [-> | ->]; now left. Qed.

(** A leading, a trailing and a doubled separator each make an empty
    segment. *)
Lemma Split_empty_segment (sep : ascii) (s t : string) :
  In "" (strings.Split (String sep t) sep)
  /\ In "" (strings.Split (s ++ String sep "") sep)
  /\ In "" (strings.Split (s ++ String sep (String sep t)) sep).
Proof.
  split; [|split].
  - simpl. rewrite Ascii.eqb_refl. now left.
  - rewrite Split_app. apply in_or_app. right. now left.
  - rewrite Split_app. apply in_or_app. right. simpl.
    rewrite Ascii.eqb_refl. now left.
Qed.

Lemma findFile_stats_head (fsys : os.FileSystem) (name e : string) (post : list string) :
  e <> "" -> In (os.CallStat e) (fst (findFile (e :: post) name fsys)).
Proof.
  intros He. rewrite findFile_cons. cbv zeta.
  apply String.eqb_neq in He. rewrite He.
  destruct (os.stat fsys e); [|now left].
  destruct (os.readdir fsys e) as [fs|]; [|now left].
  destruct (findEntry e fs name); now left.
Qed.

(** C9, as stated, fails: the entry made for an empty segment is the
    cleaned application name, which is not the bare name when the name is
    not a clean path.  Here the name is [app/] and the entry is [app]. *)
Lemma searchDirs_unclean_name :
  ~ (forall (c : SearchCategory) (a : App) (env : os.Env),
        Name a <> "" -> env (dirsVar c) = None ->
        In (Name a) (searchDirs c a env)).
Proof.
  intros H.
  specialize (H SearchConfig (NewApp "app/") (os.Setenv "HOME" "/home/u" os.emptyenv)).
  assert (Hin : In "app/" ["/home/u/.config/app"; "app"]).
  { apply H; [discriminate|reflexivity]. }
  destruct Hin as [E|[E|[]]]; discriminate E.
Qed.

(** C9, amended.  For every application with a non-empty name, if the
    search variable of the category is unset, or empty, or has an empty
    segment, the list of search directories holds the join of the empty
    segment with the name, which is the cleaned name: a non-empty path,
    rooted exactly when the name is.  It is the bare application name
    whenever the name is a clean path, as every name without a separator
    is.  The scan does not skip this entry: when the entries before it
    yield no match, the scan calls [os.Stat] on it as it stands, a path
    relative to the working directory unless the name is rooted. *)
Theorem searchDirs_empty_segment (c : SearchCategory) (a : App) (env : os.Env) :
  Name a <> "" ->
  env (dirsVar c) = None
  \/ In "" (strings.Split (os.Getenv env (dirsVar c)) filepath.ListSeparator) ->
  In (filepath.Clean (Name a)) (searchDirs c a env)
  /\ filepath.Clean (Name a) = filepath.Join [""; Name a]
  /\ filepath.Clean (Name a) <> ""
  /\ filepath.rooted (filepath.Clean (Name a)) = filepath.rooted (Name a)
  /\ (filepath.Clean (Name a) = Name a -> In (Name a) (searchDirs c a env))
  /\ (lacks filepath.Separator (Name a) = true ->
      filepath.Clean (Name a) = Name a)
  /\ (forall (name : string) (fsys : os.FileSystem) (pre post : list string),
        searchDirs c a env = pre ++ filepath.Clean (Name a) :: post ->
        Forall (noMatch fsys name) pre ->
        In (os.CallStat (filepath.Clean (Name a)))
           (os.trace (App_Find c a name env) fsys)).
Proof.
  intros Hn Hseg.
  assert (Hempty : In "" (strings.Split (os.Getenv env (dirsVar c))
                                        filepath.ListSeparator)).
  { destruct Hseg as [Hu|Hin]; [apply Split_unset; now left|assumption]. }
  assert (HJ : filepath.Clean (Name a) = filepath.Join [""; Name a]).
  { rewrite Join_empty_l. apply String.eqb_neq in Hn. now rewrite Hn. }
  assert (Hin : In (filepath.Clean (Name a)) (searchDirs c a env)).
  { unfold searchDirs. rewrite dirsForSearch_eq. right. rewrite HJ.
    exact (in_map (fun dir => filepath.Join [dir; Name a]) _ "" Hempty). }
  split; [exact Hin|]. split; [exact HJ|].
  split; [apply Clean_not_empty|]. split; [apply rooted_Clean|].
  split; [intros E; now rewrite E in Hin|].
  split; [intros Hl; now apply Clean_lacks|].
  intros name fsys pre post E Hpre.
  unfold os.trace. rewrite App_Find_findFile, E.
  rewrite findFile_prefix by assumption. cbn [fst].
  apply in_or_app. right. apply findFile_stats_head, Clean_not_empty.
Qed.

Lemma searchDirs_empty_segment_witness :
  In "app" (searchDirs SearchConfig (NewApp "app")
              (os.Setenv "HOME" "/home/u" os.emptyenv))
  /\ In (os.CallStat "app")
        (os.trace (App_FindConfigFile (NewApp "app") "settings.toml"
                     (os.Setenv "HOME" "/home/u" os.emptyenv)) exampleFS).
Proof.
  pose proof (searchDirs_empty_segment SearchConfig (NewApp "app")
                (os.Setenv "HOME" "/home/u" os.emptyenv)
                ltac:(discriminate) (or_introl eq_refl))
    as (H1 & _ & _ & _ & _ & _ & H2).
  split; [exact H1|].
  apply (H2 "settings.toml" exampleFS ["/home/u/.config/app"] []); [reflexivity|].
  constructor; [|constructor]. right. left. reflexivity.
Defined.

(** ** Determinism *)

Section SameWorld.

Variables (env env' : os.Env) (fsys fsys' : os.FileSystem).
Hypothesis Henv : sameEnv env env'.
Hypothesis Hfs : sameFS fsys fsys'.

Lemma Getenv_same (key : string) : os.Getenv env key = os.Getenv env' key.
Proof. unfold os.Getenv. now rewrite Henv. Qed.

Lemma baseDir_same (homeVar sub : string) :
  baseDir env homeVar sub = baseDir env' homeVar sub.
Proof. unfold baseDir, os.LookupEnv. now rewrite !Henv. Qed.

Lemma App_Dir_same (c : Category) (a : App) : App_Dir c a env = App_Dir c a env'.
Proof. rewrite !App_Dir_unfold. unfold joinedPath. now rewrite baseDir_same. Qed.

Lemma App_File_same (c : Category) (a : App) (name : string) :
  App_File c a name env = App_File c a name env'.
Proof. rewrite !App_File_unfold. unfold joinedPath. now rewrite App_Dir_same. Qed.

Lemma RuntimeDir_same : RuntimeDir env = RuntimeDir env'.
Proof.
  unfold RuntimeDir, os.LookupEnv, os.TempDir. now rewrite Henv, Getenv_same.
Qed.

Lemma searchDirs_same (c : SearchCategory) (a : App) :
  searchDirs c a env = searchDirs c a env'.
Proof.
  unfold searchDirs. rewrite !dirsForSearch_eq.
  now rewrite App_Dir_same, Getenv_same.
Qed.

Lemma findFile_same (dirs : list string) (name : string) :
  findFile dirs name fsys = findFile dirs name fsys'.
Proof.
  destruct Hfs as [Hs Hr].
  induction dirs as [|d dirs IH]; [reflexivity|].
  rewrite !findFile_cons. cbv zeta. now rewrite IH, Hs, Hr.
Qed.

Lemma App_Find_same (c : SearchCategory) (a : App) (name : string) :
  App_Find c a name env fsys = App_Find c a name env' fsys'.
Proof. rewrite !App_Find_findFile. now rewrite searchDirs_same, findFile_same. Qed.

Lemma call_same (a : App) (acc : Accessor) :
  call a acc env fsys = call a acc env' fsys'.
Proof.
  destruct acc; unfold call, os.ret.
  - now rewrite (App_Dir_same Config).
  - now rewrite (App_File_same Config).
  - apply (App_Find_same SearchConfig).
  - now rewrite (App_Dir_same Data).
  - now rewrite (App_File_same Data).
  - apply (App_Find_same SearchData).
  - now rewrite (App_Dir_same Cache).
  - now rewrite (App_File_same Cache).
  - unfold App_RuntimeDir. now rewrite RuntimeDir_same.
  - unfold App_RuntimeFile, App_RuntimeDir. now rewrite RuntimeDir_same.
Qed.

End SameWorld.

(** *** Programs that only read *)

Lemma run_bind {A B : Type} (m : sys.Proc A) (f : A -> sys.Proc B) (w : sys.World) :
  sys.run (sys.bind m f) w = let (a, w') := sys.run m w in sys.run (f a) w'.
Proof.
  revert w. induction m as [a|X op k IH]; intros w; simpl; [reflexivity|].
  destruct (sys.exec op w) as [x w']. apply IH.
Qed.

Lemma Observes_bind {A B : Type} (m : sys.Proc A) (f : A -> sys.Proc B) :
  sys.Observes m -> (forall a, sys.Observes (f a)) -> sys.Observes (sys.bind m f).
Proof.
  intros Hm Hf. induction Hm as [a|X op k Hop Hk IH]; simpl; [apply Hf|].
  constructor; assumption.
Qed.

Lemma Observes_perform {X : Type} (op : sys.Op X) :
  sys.observes op = true -> sys.Observes (sys.perform op).
Proof. intros H. constructor; [assumption|]. intros x. constructor. Qed.

Lemma exec_observes {X : Type} (op : sys.Op X) (w : sys.World) :
  sys.observes op = true -> snd (sys.exec op w) = w.
Proof. destruct op; simpl; intros H; reflexivity || discriminate H. Qed.

Lemma exec_same {X : Type} (op : sys.Op X) (w w' : sys.World) :
  sys.observes op = true ->
  sameEnv (sys.environ w) (sys.environ w') ->
  sameFS (sys.files w) (sys.files w') ->
  fst (sys.exec op w) = fst (sys.exec op w').
Proof.
  intros Hop Henv [Hs Hr]. destruct op; simpl; try discriminate Hop.
  - apply Henv.
  - now apply Getenv_same.
  - unfold os.TempDir. now rewrite (Getenv_same _ _ Henv).
  - apply Hs.
  - apply Hr.
Qed.

(** A program that only reads leaves the world as it found it. *)
Lemma Observes_frame {A : Type} (m : sys.Proc A) (w : sys.World) :
  sys.Observes m -> snd (sys.run m w) = w.
Proof.
  intros Hm. revert w. induction Hm as [a|X op k Hop Hk IH]; intros w; simpl;
    [reflexivity|].
  pose proof (exec_observes op w Hop) as E.
  destruct (sys.exec op w) as [x w1]. simpl in E. subst w1. apply IH.
Qed.

(** Its result depends on the content of the environment and of the file
    system only, not on the variables of the process. *)
Lemma Observes_same {A : Type} (m : sys.Proc A) (w w' : sys.World) :
  sys.Observes m ->
  sameEnv (sys.environ w) (sys.environ w') ->
  sameFS (sys.files w) (sys.files w') ->
  fst (sys.run m w) = fst (sys.run m w').
Proof.
  intros Hm Henv Hfs. induction Hm as [a|X op k Hop Hk IH]; simpl; [reflexivity|].
  pose proof (exec_observes op w Hop) as E.
  pose proof (exec_observes op w' Hop) as E'.
  pose proof (exec_same op w w' Hop Henv Hfs) as Ex.
  destruct (sys.exec op w) as [x w1]. destruct (sys.exec op w') as [x' w1'].
  simpl in *. subst. apply IH.
Qed.

Lemma Observes_baseDir (homeVar sub : string) : sys.Observes (prog.baseDir homeVar sub).
Proof.
  unfold prog.baseDir.
  apply Observes_bind; [now apply Observes_perform|].
  assert (F : sys.Observes
                (h <~ sys.perform (sys.LookupEnv "HOME") ;;
                 match h with
                 | Some h => sys.Ret (filepath.Join [h; sub], None)
                 | None =>
                     u <~ sys.perform (sys.LookupEnv "USERPROFILE") ;;
                     match u with
                     | Some u => sys.Ret (filepath.Join [u; sub], None)
                     | None => sys.Ret ("", Some EnvironmentNotFound)
                     end
                 end)).
  { apply Observes_bind; [now apply Observes_perform|].
    intros [h|]; [constructor|].
    apply Observes_bind; [now apply Observes_perform|].
    intros [u|]; constructor. }
  intros [[|c v]|]; [exact F|constructor|exact F].
Qed.

Lemma Observes_joinedPath (name : string) (f : sys.Proc res) :
  sys.Observes f -> sys.Observes (prog.joinedPath name f).
Proof.
  intros Hf. apply Observes_bind; [assumption|].
  intros [d [err|]]; constructor.
Qed.

Lemma Observes_findFile (dirs : list string) (name : string) :
  sys.Observes (prog.findFile dirs name).
Proof.
  induction dirs as [|dir dirs IH]; cbn [prog.findFile]; [constructor|].
  destruct (dir =? "")%string; [exact IH|].
  apply Observes_bind; [now apply Observes_perform|].
  intros [|]; cbn [negb]; [|exact IH].
  apply Observes_bind; [now apply Observes_perform|].
  intros [fs|]; [|exact IH].
  destruct (findEntry dir fs name); [constructor|exact IH].
Qed.

Lemma Observes_find (a : App) (name envvar : string) (D : sys.Proc res) :
  sys.Observes D ->
  sys.Observes
    (r <~ D ;;
     dirs <~ prog.dirsForSearch a (fst r) envvar ;;
     r' <~ prog.findFile dirs name ;;
     match r' with
     | (_, Some err) => sys.Ret ("", Some err)
     | (f, None) => sys.Ret (f, None)
     end).
Proof.
  intros HD. apply Observes_bind; [assumption|]. intros r.
  apply Observes_bind.
  { unfold prog.dirsForSearch. apply Observes_bind; [now apply Observes_perform|].
    intros v. constructor. }
  intros dirs. apply Observes_bind; [apply Observes_findFile|].
  intros [f [err|]]; constructor.
Qed.

Lemma Observes_RuntimeDir : sys.Observes prog.RuntimeDir.
Proof.
  unfold prog.RuntimeDir. apply Observes_bind; [now apply Observes_perform|].
  intros [[|c r]|]; try (now apply Observes_perform). constructor.
Qed.

Lemma Observes_call (a : App) (acc : Accessor) : sys.Observes (prog.call a acc).
Proof.
  assert (HD : forall hv sp,
             sys.Observes (prog.joinedPath (Name a) (prog.baseDir hv sp))).
  { intros hv sp. apply Observes_joinedPath, Observes_baseDir. }
  assert (HR : sys.Observes (prog.App_RuntimeDir a)).
  { apply Observes_bind; [apply Observes_RuntimeDir|]. intros d. constructor. }
  destruct acc; cbn [prog.call].
  - apply HD.
  - apply Observes_joinedPath, HD.
  - apply Observes_find, HD.
  - apply HD.
  - apply Observes_joinedPath, HD.
  - apply Observes_find, HD.
  - apply HD.
  - apply Observes_joinedPath, HD.
  - apply Observes_bind; [exact HR|]. intros d. constructor.
  - apply Observes_bind; [|intros d; constructor].
    unfold prog.App_RuntimeFile.
    apply Observes_bind; [exact HR|]. intros d. constructor.
Qed.

(** *** The programs and the functions *)

Lemma run_baseDir (homeVar sub : string) (w : sys.World) :
  sys.run (prog.baseDir homeVar sub) w = (baseDir (sys.environ w) homeVar sub, w).
Proof.
  unfold prog.baseDir, baseDir.
  cbn [sys.bind sys.perform sys.run sys.exec]. unfold os.LookupEnv.
  assert (F : sys.run
                (sys.Do (sys.LookupEnv "HOME")
                   (fun h => sys.bind (sys.Ret h)
                      (fun h => match h with
                                | Some h => sys.Ret (filepath.Join [h; sub], None)
                                | None =>
                                    u <~ sys.perform (sys.LookupEnv "USERPROFILE") ;;
                                    match u with
                                    | Some u => sys.Ret (filepath.Join [u; sub], None)
                                    | None => sys.Ret ("", Some EnvironmentNotFound)
                                    end
                                end))) w
              = (match sys.environ w "HOME" with
                 | Some h => (filepath.Join [h; sub], None)
                 | None =>
                     match sys.environ w "USERPROFILE" with
                     | Some u => (filepath.Join [u; sub], None)
                     | None => ("", Some EnvironmentNotFound)
                     end
                 end, w)).
  { cbn [sys.bind sys.perform sys.run sys.exec]. unfold os.LookupEnv.
    destruct (sys.environ w "HOME") as [h|]; [reflexivity|].
    cbn [sys.bind sys.perform sys.run sys.exec]. unfold os.LookupEnv.
    destruct (sys.environ w "USERPROFILE") as [u|]; reflexivity. }
  destruct (sys.environ w homeVar) as [[|c v]|]; [exact F|reflexivity|exact F].
Qed.

Lemma run_joinedPath (name : string) (f : sys.Proc res) (g : os.Env -> res)
    (w : sys.World) :
  sys.run f w = (g (sys.environ w), w) ->
  sys.run (prog.joinedPath name f) w = (joinedPath (sys.environ w) name g, w).
Proof.
  intros H. unfold prog.joinedPath, joinedPath. rewrite run_bind, H.
  destruct (g (sys.environ w)) as [d [err|]]; reflexivity.
Qed.

Lemma run_findFile (dirs : list string) (name : string) (w : sys.World) :
  sys.run (prog.findFile dirs name) w
  = (os.result (findFile dirs name) (sys.files w), w).
Proof.
  unfold os.result. induction dirs as [|dir dirs IH]; [reflexivity|].
  rewrite findFile_cons. cbv zeta. cbn [prog.findFile].
  destruct (dir =? "")%string; [exact IH|].
  rewrite run_bind. cbn [sys.perform sys.run sys.exec].
  destruct (os.stat (sys.files w) dir); cbn [negb]; [|exact IH].
  rewrite run_bind. cbn [sys.perform sys.run sys.exec].
  destruct (os.readdir (sys.files w) dir) as [fs|]; [|exact IH].
  destruct (findEntry dir fs name); [reflexivity|exact IH].
Qed.

Lemma run_dirsForSearch (a : App) (first envvar : string) (w : sys.World) :
  sys.run (prog.dirsForSearch a first envvar) w
  = (dirsForSearch a first envvar (sys.environ w), w).
Proof. reflexivity. Qed.

Lemma run_find (c : SearchCategory) (a : App) (name : string) (D : sys.Proc res)
    (w : sys.World) :
  sys.run D w = (App_Dir (categoryOf c) a (sys.environ w), w) ->
  sys.run
    (r <~ D ;;
     dirs <~ prog.dirsForSearch a (fst r) (dirsVar c) ;;
     r' <~ prog.findFile dirs name ;;
     match r' with
     | (_, Some err) => sys.Ret ("", Some err)
     | (f, None) => sys.Ret (f, None)
     end) w
  = (os.result (App_Find c a name (sys.environ w)) (sys.files w), w).
Proof.
  intros HD. rewrite run_bind, HD, run_bind, run_dirsForSearch, run_bind, run_findFile.
  unfold os.result. rewrite App_Find_findFile.
  fold (searchDirs c a (sys.environ w)).
  destruct (dirs_split (sys.files w) name (searchDirs c a (sys.environ w)))
    as [Hall|(pre & dir & post & f & E & Hpre & Hf)].
  - now rewrite (findFile_all_skipped _ _ _ Hall).
  - rewrite E. now rewrite (findFile_found _ _ _ _ _ _ Hpre Hf).
Qed.

Lemma run_App_Dir (c : Category) (a : App) (w : sys.World) :
  sys.run (prog.joinedPath (Name a) (prog.baseDir (homeVar c) (subpath c))) w
  = (App_Dir c a (sys.environ w), w).
Proof.
  rewrite App_Dir_unfold.
  apply (run_joinedPath (Name a) _ (fun e => baseDir e (homeVar c) (subpath c))).
  apply run_baseDir.
Qed.

Lemma run_App_File (c : Category) (a : App) (name : string) (w : sys.World) :
  sys.run (prog.joinedPath name
             (prog.joinedPath (Name a) (prog.baseDir (homeVar c) (subpath c)))) w
  = (App_File c a name (sys.environ w), w).
Proof.
  rewrite App_File_unfold.
  apply (run_joinedPath name _ (App_Dir c a)). apply run_App_Dir.
Qed.

Lemma run_RuntimeDir (w : sys.World) :
  sys.run prog.RuntimeDir w = (RuntimeDir (sys.environ w), w).
Proof.
  unfold prog.RuntimeDir, RuntimeDir.
  cbn [sys.bind sys.perform sys.run sys.exec]. unfold os.LookupEnv.
  destruct (sys.environ w "XDG_RUNTIME_DIR") as [[|c r]|]; reflexivity.
Qed.

(** The run of an accessor returns what the function of the same name
    returns on the environment and the file system of the world, and
    leaves the world as it is. *)
Lemma run_call (a : App) (acc : Accessor) (w : sys.World) :
  sys.run (prog.call a acc) w
  = (os.result (call a acc (sys.environ w)) (sys.files w), w).
Proof.
  destruct acc; cbn [prog.call call].
  - apply (run_App_Dir Config).
  - apply (run_App_File Config).
  - apply (run_find SearchConfig), (run_App_Dir Config).
  - apply (run_App_Dir Data).
  - apply (run_App_File Data).
  - apply (run_find SearchData), (run_App_Dir Data).
  - apply (run_App_Dir Cache).
  - apply (run_App_File Cache).
  - unfold prog.App_RuntimeDir. now rewrite !run_bind, run_RuntimeDir.
  - unfold prog.App_RuntimeFile, prog.App_RuntimeDir.
    now rewrite !run_bind, run_RuntimeDir.
Qed.

(** A program that keeps a result in a variable of the process is not of
    that kind: it does not only read, and in two worlds with the same
    environment and the same file system it returns different results. *)
Lemma cachedConfigDir_stale :
  let a := NewApp "app" in
  let fsys := {| os.stat := fun _ => false; os.readdir := fun _ => None |} in
  let w := {| sys.environ := os.Setenv "HOME" "/home/u" os.emptyenv;
              sys.files := fsys; sys.memory := fun _ => None |} in
  let w' := {| sys.environ := os.Setenv "HOME" "/home/u" os.emptyenv;
               sys.files := fsys;
               sys.memory := fun _ => Some "/home/old/.config/app" |} in
  ~ sys.Observes (prog.cachedConfigDir a)
  /\ fst (sys.run (prog.cachedConfigDir a) w) = ("/home/u/.config/app", None)
  /\ fst (sys.run (prog.cachedConfigDir a) w') = ("/home/old/.config/app", None)
  /\ snd (sys.run (prog.cachedConfigDir a) w) <> w.
Proof.
  cbv zeta.
  set (w := {| sys.environ := os.Setenv "HOME" "/home/u" os.emptyenv;
               sys.files := {| os.stat := fun _ => false; os.readdir := fun _ => None |};
               sys.memory := fun _ => None |}).
  assert (Hw : snd (sys.run (prog.cachedConfigDir (NewApp "app")) w) <> w).
  { intros E. apply (f_equal (fun x => sys.memory x "ConfigDir")) in E.
    vm_compute in E. discriminate E. }
  split; [|split; [|split]].
  - intros H. apply Hw. now apply Observes_frame.
  - reflexivity.
  - reflexivity.
  - exact Hw.
Qed.

(** C8.  Every accessor performs operations that read the environment or
    the file system, and no other: it changes neither of them and neither
    reads nor writes a variable of the process, so that it keeps no cache
    and no hidden state.  Its run leaves the world as it is and returns the
    value of the accessor as a function of its arguments, of the
    environment and of the file system; two consecutive calls with the
    same arguments return identical results; and two worlds with the same
    environment and the same file system give the same result, whatever
    the variables of the process hold. *)
Theorem accessors_deterministic (a : App) (acc : Accessor) :
  sys.Observes (prog.call a acc)
  /\ (forall w : sys.World,
        sys.run (prog.call a acc) w
        = (os.result (call a acc (sys.environ w)) (sys.files w), w))
  /\ (forall w : sys.World,
        sys.run (r1 <~ prog.call a acc ;; r2 <~ prog.call a acc ;; sys.Ret (r1, r2)) w
        = ((fst (sys.run (prog.call a acc) w), fst (sys.run (prog.call a acc) w)), w))
  /\ (forall w w' : sys.World,
        sameEnv (sys.environ w) (sys.environ w') ->
        sameFS (sys.files w) (sys.files w') ->
        fst (sys.run (prog.call a acc) w) = fst (sys.run (prog.call a acc) w')).
Proof.
  pose proof (Observes_call a acc) as HO.
  split; [exact HO|]. split; [apply run_call|]. split.
  - intros w. rewrite run_bind.
    pose proof (Observes_frame (prog.call a acc) w HO) as Hw.
    destruct (sys.run (prog.call a acc) w) as [r w1] eqn:E1. simpl in Hw. subst w1.
    rewrite run_bind, E1. reflexivity.
  - intros w w'. now apply Observes_same.
Qed.

Lemma accessors_deterministic_witness :
  fst (sys.run (prog.call (NewApp "app") (FindConfigFileOf "settings.toml"))
         {| sys.environ := os.Setenv "XDG_CONFIG_DIRS" "/etc/xdg"
                             (os.Setenv "XDG_CONFIG_DIRS" "/usr/etc" os.emptyenv);
            sys.files := exampleFS;
            sys.memory := fun _ => None |})
  = fst (sys.run (prog.call (NewApp "app") (FindConfigFileOf "settings.toml"))
           {| sys.environ := os.Setenv "XDG_CONFIG_DIRS" "/etc/xdg" os.emptyenv;
              sys.files := {| os.stat := fun p => ("/etc/xdg/app" =? p)%string;
                              os.readdir := os.readdir exampleFS |};
              sys.memory := fun _ => Some "/etc/xdg/app/stale" |}).
Proof.
  apply (proj2 (proj2 (proj2 (accessors_deterministic (NewApp "app")
                                (FindConfigFileOf "settings.toml"))))).
  - intros key. simpl. unfold os.Setenv.
    destruct (key =? "XDG_CONFIG_DIRS")%string; reflexivity.
  - split; [|reflexivity]. intros p. simpl. apply String.eqb_sym.
Defined.

(** * Further properties of the accessors and of the search *)

(** ** Nested joins *)

Lemma canon_nil (r : bool) (out : filepath.lazybuf) :
  canon r out -> filepath.buf out = [] ->
  out = {| filepath.buf := []; filepath.dotdot := 0 |}.
Proof.
  intros (ps & Hb & _ & _) E. destruct out as [b k]. simpl in *.
  rewrite E in Hb. symmetry in Hb. apply app_eq_nil in Hb as [_ Hk].
  rewrite E. destruct k; [reflexivity|discriminate].
Qed.

(** Cleaning the elements of a cleaned path gives the buffer of the path. *)
Lemma clean_elems_Clean (x : string) :
  x <> "" ->
  filepath.clean_elems (filepath.rooted x)
    (strings.Split (filepath.Clean x) filepath.Separator)
  = filepath.clean_elems (filepath.rooted x) (strings.Split x filepath.Separator).
Proof.
  intros Hx. unfold filepath.Clean. apply String.eqb_neq in Hx. rewrite Hx.
  set (r := filepath.rooted x).
  pose proof (clean_elems_canon r x) as Hc.
  set (out := filepath.clean_elems r (strings.Split x filepath.Separator)) in *.
  destruct (filepath.buf out) as [|e b] eqn:Eb.
  - rewrite (canon_nil r out Hc Eb). destruct r; reflexivity.
  - assert (Hne : filepath.buf out <> []) by (rewrite Eb; discriminate).
    rewrite <- Eb, (render_Split r out Hc Hne).
    assert (Hdrop : filepath.clean_elems r ((if r then [""] else []) ++ rev (filepath.buf out))
                    = filepath.clean_elems r (rev (filepath.buf out))).
    { destruct r; reflexivity. }
    rewrite Hdrop. apply clean_elems_canon_id, Hc.
Qed.

(** A cleaned prefix can stand for the prefix. *)
Lemma Clean_Clean_prefix (x y : string) :
  x <> "" ->
  filepath.Clean (filepath.Clean x ++ "/" ++ y) = filepath.Clean (x ++ "/" ++ y).
Proof.
  intros Hx. unfold filepath.Clean at 1 3.
  destruct (String.eqb_spec (filepath.Clean x ++ "/" ++ y) "") as [E|_].
  { now destruct (append_not_empty _ ("/" ++ y) (Clean_not_empty x)). }
  destruct (String.eqb_spec (x ++ "/" ++ y) "") as [E|_].
  { now destruct (append_not_empty x ("/" ++ y) Hx). }
  rewrite (rooted_append _ _ (Clean_not_empty x)), rooted_Clean.
  rewrite (rooted_append _ _ Hx).
  change (filepath.Clean x ++ "/" ++ y)%string
    with (filepath.Clean x ++ String filepath.Separator y)%string.
  change (x ++ "/" ++ y)%string with (x ++ String filepath.Separator y)%string.
  rewrite !Split_app. unfold filepath.clean_elems. rewrite !fold_left_app.
  pose proof (clean_elems_Clean x Hx) as H. unfold filepath.clean_elems in H.
  now rewrite H.
Qed.

Lemma Join_single (n : string) :
  filepath.Join [n] = if (n =? "")%string then "" else filepath.Clean n.
Proof. simpl. now destruct (n =? "")%string. Qed.

Lemma Join_nested (b n name : string) :
  filepath.Join [filepath.Join [b; n]; name] = filepath.Join [b; n; name].
Proof.
  destruct (String.eqb_spec b "") as [->|Hb].
  - change (filepath.Join [""; n]) with (filepath.Join [n]).
    change (filepath.Join [""; n; name]) with (filepath.Join [n; name]).
    rewrite Join_single. destruct (String.eqb_spec n "") as [->|Hn]; [reflexivity|].
    rewrite (Join_pair _ _ (Clean_not_empty n)), (Join_pair _ _ Hn).
    now apply Clean_Clean_prefix.
  - rewrite (Join_pair b n Hb), (Join_pair _ _ (Clean_not_empty _)).
    rewrite Clean_Clean_prefix by now apply append_not_empty.
    simpl. apply String.eqb_neq in Hb. rewrite Hb. unfold strings.Join. simpl.
    now rewrite !append_assoc.
Qed.

(** X1.  A file accessor is the join of three elements: the path that
    [joinedPath] makes from the directory that another [joinedPath] makes
    from a base directory [b] is [filepath.Join] of [b], the application
    name and the file name, whatever the three strings are and whatever
    function gives the base directory; an error of that function comes
    back with the empty path.  So it is for ConfigFile, DataFile and
    CacheFile, and RuntimeFile is the join of the runtime base directory,
    the application name and the file name. *)
Theorem File_triple_join (a : App) (name : string) (env : os.Env) :
  (forall (f : os.Env -> res) (n : string),
     joinedPath env name (fun e => joinedPath e n f)
     = match f env with
       | (_, Some err) => ("", Some err)
       | (b, None) => (filepath.Join [b; n; name], None)
       end)
  /\ (forall c : Category,
        App_File c a name env
        = match baseDir env (homeVar c) (subpath c) with
          | (_, Some err) => ("", Some err)
          | (b, None) => (filepath.Join [b; Name a; name], None)
          end)
  /\ App_RuntimeFile a name env = filepath.Join [RuntimeDir env; Name a; name].
Proof.
  assert (G : forall (f : os.Env -> res) (n : string),
             joinedPath env name (fun e => joinedPath e n f)
             = match f env with
               | (_, Some err) => ("", Some err)
               | (b, None) => (filepath.Join [b; n; name], None)
               end).
  { intros f n. unfold joinedPath. destruct (f env) as [b [err|]]; [reflexivity|].
    now rewrite Join_nested. }
  split; [exact G|]. split.
  - intros c.
    rewrite <- (G (fun e => baseDir e (homeVar c) (subpath c)) (Name a)).
    destruct c; reflexivity.
  - unfold App_RuntimeFile, App_RuntimeDir. apply Join_nested.
Qed.

(** ** The shape of the returned paths *)

Lemma Join_empty_r (d : string) :
  d <> "" -> filepath.Join [d; ""] = filepath.Clean d.
Proof.
  intros Hd. rewrite Join_pair by assumption.
  unfold filepath.Clean.
  destruct (String.eqb_spec (d ++ "/" ++ "") "") as [E|_].
  { now destruct (append_not_empty d ("/" ++ "") Hd). }
  apply String.eqb_neq in Hd. rewrite Hd. apply String.eqb_neq in Hd.
  rewrite rooted_append by assumption.
  change (d ++ "/" ++ "")%string with (d ++ String filepath.Separator "")%string.
  rewrite Split_app. unfold filepath.clean_elems. rewrite fold_left_app.
  reflexivity.
Qed.

Lemma rooted_Join (d e : string) :
  d <> "" -> filepath.rooted (filepath.Join [d; e]) = filepath.rooted d.
Proof.
  intros Hd. rewrite Join_pair, rooted_Clean by assumption.
  now apply rooted_append.
Qed.

Lemma Base_Join_any (d e : string) :
  isElem e = true -> filepath.Base (filepath.Join [d; e]) = e.
Proof.
  intros He. destruct (String.eqb_spec d "") as [->|Hd].
  - rewrite Join_empty_l. pose proof He as He'.
    apply isElem_spec in He' as (H1 & _ & _ & Hl).
    apply String.eqb_neq in H1. rewrite H1. apply String.eqb_neq in H1.
    rewrite (Clean_lacks e H1 Hl). now apply Base_elem.
  - now apply Base_Join_elem.
Qed.

Lemma Base_not_empty (path : string) : filepath.Base path <> "".
Proof.
  unfold filepath.Base. destruct (path =? "")%string; [discriminate|].
  destruct (rev (filter (fun e => negb (e =? "")%string)
                   (strings.Split path filepath.Separator))) as [|e es] eqn:E;
    [discriminate|].
  assert (Hin : In e (filter (fun e => negb (e =? "")%string)
                        (strings.Split path filepath.Separator))).
  { apply in_rev. rewrite E. now left. }
  apply filter_In in Hin as [_ Hin]. apply negb_true_iff in Hin.
  now apply String.eqb_neq.
Qed.

Lemma findFile_cases (fsys : os.FileSystem) (dirs : list string) (name : string) :
  (Forall (noMatch fsys name) dirs
   /\ os.result (findFile dirs name) fsys = ("", Some (fileNotFound name)))
  \/ (exists dir f, In dir dirs /\ firstMatch fsys name dir f
                    /\ os.result (findFile dirs name) fsys
                       = (filepath.Join [dir; f], None)).
Proof.
  unfold os.result.
  destruct (dirs_split fsys name dirs)
    as [Hall|(pre & dir & post & f & -> & Hpre & Hf)].
  - left. split; [assumption|]. now rewrite (findFile_all_skipped _ _ _ Hall).
  - right. exists dir, f. split; [apply in_or_app; right; now left|].
    split; [assumption|]. now rewrite (findFile_found _ _ _ _ _ _ Hpre Hf).
Qed.

Lemma App_File_normal (c : Category) (a : App) (name : string) (env : os.Env)
    (p : string) (err : option error) :
  App_File c a name env = (p, err) ->
  (err = None -> p <> "" /\ filepath.Clean p = p) /\ (err <> None -> p = "").
Proof.
  rewrite App_File_unfold. intros H. destruct err as [e|].
  - split; [discriminate|]. intros _. now apply joinedPath_err in H as [-> _].
  - split; [|congruence]. intros _.
    apply joinedPath_ok in H as (d & Hd & ->).
    destruct (App_Dir_ok c a env d Hd) as [Hne _].
    pose proof (Join_pair_not_empty d name Hne) as HJ.
    split; [assumption|now apply Join_clean].
Qed.

Lemma App_Dir_normal (c : Category) (a : App) (env : os.Env)
    (p : string) (err : option error) :
  App_Dir c a env = (p, err) ->
  (err = None -> p <> "" /\ filepath.Clean p = p) /\ (err <> None -> p = "").
Proof.
  intros H. destruct err as [e|].
  - split; [discriminate|]. intros _. exact (App_Dir_err c a env p e H).
  - split; [|congruence]. intros _. exact (App_Dir_ok c a env p H).
Qed.

Lemma App_Find_normal (c : SearchCategory) (a : App) (name : string) (env : os.Env)
    (fsys : os.FileSystem) (p : string) (err : option error) :
  os.result (App_Find c a name env) fsys = (p, err) ->
  (err = None -> p <> "" /\ filepath.Clean p = p) /\ (err <> None -> p = "").
Proof.
  unfold os.result. rewrite App_Find_findFile.
  destruct (findFile_cases fsys (searchDirs c a env) name)
    as [[_ E]|(dir & f & _ & Hf & E)]; unfold os.result in E; rewrite E.
  - intros [= <- <-]. split; [discriminate|reflexivity].
  - intros [= <- <-]. split; [|congruence]. intros _.
    destruct Hf as (Hd & _).
    pose proof (Join_pair_not_empty dir f Hd) as HJ.
    split; [exact HJ|exact (Join_clean [dir; f] HJ)].
Qed.

(** X2.  Every accessor returns either a path without an error or an
    error with the empty path, never both; and a returned path is never
    empty and is lexically clean ([filepath.Clean] leaves it as it is): it
    has no doubled or trailing separator, no [.] element and no [..]
    element after a name. *)
Theorem accessor_path_clean (a : App) (acc : Accessor) (env : os.Env)
    (fsys : os.FileSystem) (p : string) (err : option error) :
  os.result (call a acc env) fsys = (p, err) ->
  (err = None -> p <> "" /\ filepath.Clean p = p) /\ (err <> None -> p = "").
Proof.
  assert (HR : forall d n, d <> "" -> (filepath.Join [d; n], @None error) = (p, err) ->
               (err = None -> p <> "" /\ filepath.Clean p = p)
               /\ (err <> None -> p = "")).
  { intros d n Hd H. pose proof (Join_pair_not_empty d n Hd) as HJ.
    pose proof (Join_clean [d; n] HJ) as HC.
    injection H as <- <-. split; [|congruence]. intros _. now split. }
  destruct acc; unfold call.
  - apply (App_Dir_normal Config).
  - apply (App_File_normal Config).
  - apply (App_Find_normal SearchConfig).
  - apply (App_Dir_normal Data).
  - apply (App_File_normal Data).
  - apply (App_Find_normal SearchData).
  - apply (App_Dir_normal Cache).
  - apply (App_File_normal Cache).
  - apply (HR (RuntimeDir env) (Name a)), RuntimeDir_not_empty.
  - apply (HR (App_RuntimeDir a env) name).
    apply Join_pair_not_empty, RuntimeDir_not_empty.
Qed.

Lemma accessor_path_clean_witness :
  filepath.Clean "/home/u/.cache/my/app/index" = "/home/u/.cache/my/app/index"
  /\ fst (os.result (call (NewApp "app") (FindDataFileOf "index") os.emptyenv)
            exampleFS) = "".
Proof.
  split.
  - exact (proj2 (proj1 (accessor_path_clean (NewApp "my//app/.") (CacheFileOf "./index")
                           (os.Setenv "HOME" "/home/u/" os.emptyenv) exampleFS
                           "/home/u/.cache/my/app/index" None eq_refl) eq_refl)).
  - assert (Herr : Some (fileNotFound "index") <> None) by discriminate.
    exact (proj2 (accessor_path_clean (NewApp "app") (FindDataFileOf "index")
                    os.emptyenv exampleFS
                    (fst (os.result (call (NewApp "app") (FindDataFileOf "index")
                                       os.emptyenv) exampleFS))
                    (Some (fileNotFound "index")) eq_refl) Herr).
Defined.

(** X3.  For a file name that is a single file-name element, the last
    element of the path that [joinedPath] returns is the file name,
    whatever the directory is: ConfigFile, DataFile, CacheFile and
    RuntimeFile return a path whose base name is the requested name. *)
Theorem File_Base_is_name (a : App) (name : string) (env : os.Env) :
  isElem name = true ->
  (forall (f : os.Env -> res) (p : string),
     joinedPath env name f = (p, None) -> filepath.Base p = name)
  /\ (forall (c : Category) (p : string),
        App_File c a name env = (p, None) -> filepath.Base p = name)
  /\ filepath.Base (App_RuntimeFile a name env) = name.
Proof.
  intros Hn.
  assert (G : forall (f : os.Env -> res) (p : string),
             joinedPath env name f = (p, None) -> filepath.Base p = name).
  { intros f p H. apply joinedPath_ok in H as (d & _ & ->).
    now apply Base_Join_any. }
  split; [exact G|]. split.
  - intros c p. rewrite App_File_unfold. apply G.
  - unfold App_RuntimeFile. now apply Base_Join_any.
Qed.

Lemma File_Base_is_name_witness :
  filepath.Base "/home/u/.local/share/app/history.db" = "history.db"
  /\ filepath.Base (App_RuntimeFile (NewApp "app") "history.db" os.emptyenv)
     = "history.db".
Proof.
  pose proof (File_Base_is_name (NewApp "app") "history.db"
                (os.Setenv "HOME" "/home/u" os.emptyenv) eq_refl) as (_ & H & _).
  pose proof (File_Base_is_name (NewApp "app") "history.db" os.emptyenv eq_refl)
    as (_ & _ & H').
  split; [exact (H Data "/home/u/.local/share/app/history.db" eq_refl)|exact H'].
Defined.

(** X4.  Neither the application name nor the file name changes whether a
    path is rooted: the path that [joinedPath] makes from a non-empty
    directory starts with a separator exactly when the directory does, so
    a file accessor is rooted exactly when its directory accessor is, and
    a path found by the search is rooted exactly when the directory it was
    found in is: the first directory of the list with a match, of which
    the path is the join with the matching entry. *)
Theorem paths_keep_root (a : App) (name : string) (env : os.Env) :
  (forall (f : os.Env -> res) (d p : string),
     f env = (d, None) -> d <> "" -> joinedPath env name f = (p, None) ->
     filepath.rooted p = filepath.rooted d)
  /\ (forall (c : Category) (d p : string),
        App_Dir c a env = (d, None) -> App_File c a name env = (p, None) ->
        filepath.rooted p = filepath.rooted d)
  /\ filepath.rooted (App_RuntimeFile a name env) = filepath.rooted (RuntimeDir env)
  /\ (forall (dirs : list string) (fsys : os.FileSystem) (p : string),
        os.result (findFile dirs name) fsys = (p, None) ->
        exists pre d post f,
          dirs = pre ++ d :: post
          /\ Forall (noMatch fsys name) pre
          /\ firstMatch fsys name d f
          /\ p = filepath.Join [d; f]
          /\ filepath.rooted p = filepath.rooted d).
Proof.
  assert (G : forall (f : os.Env -> res) (d p : string),
             f env = (d, None) -> d <> "" -> joinedPath env name f = (p, None) ->
             filepath.rooted p = filepath.rooted d).
  { intros f d p Hf Hd H. unfold joinedPath in H. rewrite Hf in H.
    injection H as <-. now apply rooted_Join. }
  split; [exact G|]. split; [|split].
  - intros c d p Hd Hp. rewrite App_File_unfold in Hp.
    destruct (App_Dir_ok c a env d Hd) as [Hne _].
    exact (G (App_Dir c a) d p Hd Hne Hp).
  - unfold App_RuntimeFile, App_RuntimeDir.
    rewrite rooted_Join by apply Join_pair_not_empty, RuntimeDir_not_empty.
    apply rooted_Join, RuntimeDir_not_empty.
  - intros dirs fsys p H. unfold os.result in H.
    destruct (dirs_split fsys name dirs)
      as [Hall|(pre & dir & post & f & E & Hpre & Hf)].
    + rewrite (findFile_all_skipped fsys name dirs Hall) in H. discriminate H.
    + rewrite E, (findFile_found fsys name pre post dir f Hpre Hf) in H.
      cbn [snd] in H. injection H as <-.
      exists pre, dir, post, f. split; [exact E|]. split; [exact Hpre|].
      split; [exact Hf|]. split; [reflexivity|].
      destruct Hf as (Hd & _). exact (rooted_Join dir f Hd).
Qed.

Lemma paths_keep_root_witness :
  filepath.rooted "../x" = filepath.rooted "rel/app"
  /\ filepath.rooted "/etc/xdg/app/themes" = filepath.rooted "/etc/xdg/app".
Proof.
  pose proof (paths_keep_root (NewApp "app") "../../../x"
                (os.Setenv "XDG_CONFIG_HOME" "rel" os.emptyenv)) as (_ & H & _).
  pose proof (paths_keep_root (NewApp "app") "themes" os.emptyenv) as (_ & _ & _ & H').
  split.
  - exact (H Config "rel/app" "../x" eq_refl eq_refl).
  - destruct (H' ["app"; "/etc/xdg/app"; "opt"] exampleFS "/etc/xdg/app/themes" eq_refl)
      as (pre & d & post & f & E & _ & Hf & _ & Hr).
    assert (Hd : d = "/etc/xdg/app").
    { destruct Hf as (_ & Hs & _). simpl in Hs. now apply String.eqb_eq in Hs. }
    rewrite Hd in Hr. exact Hr.
Defined.

(** ** Names that are not file names *)

(** X5.  With the empty file name, a file accessor returns what its
    directory accessor returns, the result or the failure, and RuntimeFile
    returns the runtime directory; and the search for the empty name
    fails on every list of directories and on every file system, since no
    entry has the empty base name. *)
Theorem empty_file_name (a : App) (env : os.Env) :
  (forall c : Category, App_File c a "" env = App_Dir c a env)
  /\ App_RuntimeFile a "" env = App_RuntimeDir a env
  /\ (forall (dirs : list string) (fsys : os.FileSystem),
        os.result (findFile dirs "") fsys = ("", Some (fileNotFound "")))
  /\ (forall (c : SearchCategory) (fsys : os.FileSystem),
        os.result (App_Find c a "" env) fsys = ("", Some (fileNotFound ""))).
Proof.
  assert (F : forall (dirs : list string) (fsys : os.FileSystem),
             os.result (findFile dirs "") fsys = ("", Some (fileNotFound ""))).
  { intros dirs fsys.
    destruct (findFile_cases fsys dirs "") as [[_ E]|(dir & f & _ & Hf & _)];
      [exact E|].
    destruct Hf as (_ & _ & fs1 & fs2 & _ & _ & Hb).
    now destruct (Base_not_empty f). }
  split; [|split; [|split]].
  - intros c. rewrite App_File_unfold. unfold joinedPath.
    destruct (App_Dir c a env) as [d [err|]] eqn:Hd.
    + now rewrite (App_Dir_err c a env d err Hd).
    + destruct (App_Dir_ok c a env d Hd) as [Hne Hc].
      now rewrite (Join_empty_r d Hne), Hc.
  - unfold App_RuntimeFile.
    pose proof (Join_pair_not_empty (RuntimeDir env) (Name a)
                  (RuntimeDir_not_empty env)) as Hne.
    fold (App_RuntimeDir a env) in *.
    rewrite (Join_empty_r _ Hne). unfold App_RuntimeDir in *.
    now apply Join_clean.
  - exact F.
  - intros c fsys. unfold os.result. rewrite App_Find_findFile. apply F.
Qed.

(** X6.  On a file system whose listings hold file names, the search
    finds file names only: for a requested name that is not a single
    file-name element (a name with a separator such as [sub/file], the
    names [.] and [..], the empty name) it fails on every list of
    directories, also when such a file exists below a directory of the
    list. *)
Theorem findFile_plain_names_only (fsys : os.FileSystem) (name : string) :
  listsNames fsys -> isElem name = false ->
  (forall dirs : list string,
     os.result (findFile dirs name) fsys = ("", Some (fileNotFound name)))
  /\ (forall (c : SearchCategory) (a : App) (env : os.Env),
        os.result (App_Find c a name env) fsys = ("", Some (fileNotFound name))).
Proof.
  intros Hfs Hn.
  assert (F : forall dirs : list string,
             os.result (findFile dirs name) fsys = ("", Some (fileNotFound name))).
  { intros dirs.
    destruct (findFile_cases fsys dirs name) as [[_ E]|(dir & f & _ & Hf & _)];
      [exact E|].
    destruct Hf as (_ & _ & fs1 & fs2 & Hr & _ & Hb).
    assert (He : isElem f = true).
    { apply (Hfs dir _ Hr). apply in_or_app. right. now left. }
    rewrite (Base_elem f He) in Hb. congruence. }
  split; [exact F|].
  intros c a env. unfold os.result. rewrite App_Find_findFile. apply F.
Qed.

Lemma findFile_plain_names_only_witness :
  os.result (findFile ["/etc/xdg"; "/etc/xdg/app"] "app/themes") exampleFS
  = ("", Some (fileNotFound "app/themes")).
Proof.
  exact (proj1 (findFile_plain_names_only exampleFS "app/themes"
                  exampleFS_listsNames eq_refl) ["/etc/xdg"; "/etc/xdg/app"]).
Defined.

(** ** The search and the file accessors *)

Lemma findEntry_name (dir name : string) (fs : list string) :
  (forall f, In f fs -> isElem f = true) -> In name fs ->
  findEntry dir fs name = Some (filepath.Join [dir; name]).
Proof.
  intros Hfs Hin.
  destruct (findEntry dir fs name) as [p|] eqn:E.
  - apply findEntry_Some in E as (fs1 & f & fs2 & -> & _ & Hb & ->).
    assert (He : isElem f = true).
    { apply Hfs, in_or_app. right. now left. }
    rewrite (Base_elem f He) in Hb. now subst f.
  - exfalso. apply (proj1 (findEntry_None dir name fs) E name Hin).
    apply Base_elem, Hfs, Hin.
Qed.

(** X7.  When the directory of the category resolves and holds the
    requested file, the search returns the very path that the file
    accessor returns: FindConfigFile agrees with ConfigFile, and
    FindDataFile with DataFile.  It makes two calls, on that directory, and
    consults no directory of the search variable, whatever they hold. *)
Theorem App_Find_primary (c : SearchCategory) (a : App) (name : string)
    (env : os.Env) (fsys : os.FileSystem) (d : string) (fs : list string) :
  App_Dir (categoryOf c) a env = (d, None) ->
  os.stat fsys d = true ->
  os.readdir fsys d = Some fs ->
  (forall f, In f fs -> isElem f = true) ->
  In name fs ->
  App_Find c a name env fsys
  = ([os.CallStat d; os.CallReadDir d], App_File (categoryOf c) a name env).
Proof.
  intros Hd Hs Hr Hfs Hin.
  destruct (App_Dir_ok _ a env d Hd) as [Hne _].
  rewrite App_Find_findFile. unfold searchDirs.
  rewrite dirsForSearch_eq, Hd. cbn [fst].
  rewrite findFile_cons. cbv zeta.
  apply String.eqb_neq in Hne. rewrite Hne, Hs, Hr.
  rewrite (findEntry_name d name fs Hfs Hin).
  rewrite App_File_unfold. unfold joinedPath. now rewrite Hd.
Qed.

Lemma App_Find_primary_witness :
  App_FindConfigFile (NewApp "app") "themes"
    (os.Setenv "XDG_CONFIG_HOME" "/etc/xdg"
       (os.Setenv "XDG_CONFIG_DIRS" "/etc/xdg:/opt" os.emptyenv)) exampleFS
  = ([os.CallStat "/etc/xdg/app"; os.CallReadDir "/etc/xdg/app"],
     ("/etc/xdg/app/themes", None)).
Proof.
  apply (App_Find_primary SearchConfig (NewApp "app") "themes"
           (os.Setenv "XDG_CONFIG_HOME" "/etc/xdg"
              (os.Setenv "XDG_CONFIG_DIRS" "/etc/xdg:/opt" os.emptyenv))
           exampleFS "/etc/xdg/app" ["Settings.toml"; "settings.toml"; "themes"]);
    try reflexivity.
  - intros f [<-|[<-|[<-|[]]]]; reflexivity.
  - right. right. now left.
Defined.

(** X8.  Among the directories of the search variable, the first one
    whose application directory holds the name wins: when the directory of
    the category and the application directories of the segments before
    [seg] yield no match, and [f] is the first match in the application
    directory of [seg], the search returns the join of [seg], the
    application name and [f]. *)
Theorem App_Find_first_segment (c : SearchCategory) (a : App) (name : string)
    (env : os.Env) (fsys : os.FileSystem) (s1 s2 : list string) (seg f : string) :
  strings.Split (os.Getenv env (dirsVar c)) filepath.ListSeparator
  = s1 ++ seg :: s2 ->
  noMatch fsys name (fst (App_Dir (categoryOf c) a env)) ->
  Forall (fun s => noMatch fsys name (filepath.Join [s; Name a])) s1 ->
  firstMatch fsys name (filepath.Join [seg; Name a]) f ->
  os.result (App_Find c a name env) fsys
  = (filepath.Join [seg; Name a; f], None).
Proof.
  intros Hsplit Hd Hs1 Hf.
  unfold os.result. rewrite App_Find_findFile. unfold searchDirs.
  rewrite dirsForSearch_eq, Hsplit, map_app. cbn [map].
  rewrite app_comm_cons.
  rewrite (findFile_found fsys name _ _ _ f); [|constructor; [exact Hd|]|exact Hf].
  - cbn [snd]. now rewrite Join_nested.
  - apply Forall_forall. intros x Hx. apply in_map_iff in Hx as (s & <- & Hin).
    rewrite Forall_forall in Hs1. now apply Hs1.
Qed.

Lemma App_Find_first_segment_witness :
  os.result (App_FindDataFile (NewApp "app") "themes"
               (os.Setenv "XDG_DATA_DIRS" "/opt:/etc/xdg:/usr/share"
                  (os.Setenv "HOME" "/home/u" os.emptyenv))) exampleFS
  = ("/etc/xdg/app/themes", None).
Proof.
  apply (App_Find_first_segment SearchData (NewApp "app") "themes"
           (os.Setenv "XDG_DATA_DIRS" "/opt:/etc/xdg:/usr/share"
              (os.Setenv "HOME" "/home/u" os.emptyenv))
           exampleFS ["/opt"] ["/usr/share"] "/etc/xdg" "themes").
  - reflexivity.
  - right. left. reflexivity.
  - constructor; [|constructor]. right. left. reflexivity.
  - split; [discriminate|]. split; [reflexivity|].
    exists ["Settings.toml"; "settings.toml"], []. split; [reflexivity|].
    split; [|reflexivity].
    intros x [<-|[<-|[]]]; vm_compute; discriminate.
Defined.

(** X9.  Directories appended to a list are consulted only when the list
    yields no match: a search that succeeds on [xs] returns the same result
    with the same calls on [xs ++ ys], and a search that fails on [xs]
    goes on as the search of [ys], after the calls made on [xs]. *)
Theorem findFile_app (fsys : os.FileSystem) (name : string) (xs ys : list string) :
  (forall p, os.result (findFile xs name) fsys = (p, None) ->
     findFile (xs ++ ys) name fsys = findFile xs name fsys)
  /\ (forall p err, os.result (findFile xs name) fsys = (p, Some err) ->
        findFile (xs ++ ys) name fsys
        = (os.trace (findFile xs name) fsys ++ os.trace (findFile ys name) fsys,
           os.result (findFile ys name) fsys)).
Proof.
  unfold os.result, os.trace.
  destruct (dirs_split fsys name xs) as [Hall|(pre & dir & post & f & -> & Hpre & Hf)].
  - rewrite (findFile_all_skipped fsys name xs Hall). cbn [fst snd]. split.
    + discriminate.
    + intros _ _ _. now apply findFile_prefix.
  - rewrite <- app_assoc. cbn [app].
    rewrite !(findFile_found fsys name pre _ dir f Hpre Hf). cbn [fst snd].
    split; [reflexivity|discriminate].
Qed.

Lemma findFile_app_witness :
  findFile (["/srv"; "/etc/xdg/app"] ++ ["/etc/xdg/app"]) "themes" exampleFS
  = findFile ["/srv"; "/etc/xdg/app"] "themes" exampleFS
  /\ os.result (findFile (["/srv"] ++ ["/etc/xdg/app"]) "themes") exampleFS
     = ("/etc/xdg/app/themes", None).
Proof.
  split.
  - exact (proj1 (findFile_app exampleFS "themes" ["/srv"; "/etc/xdg/app"]
                    ["/etc/xdg/app"]) "/etc/xdg/app/themes" eq_refl).
  - pose proof (proj2 (findFile_app exampleFS "themes" ["/srv"] ["/etc/xdg/app"])
                  "" (fileNotFound "themes") eq_refl) as H.
    unfold os.result. rewrite H. reflexivity.
Defined.

(** ** The calls of the search *)

Lemma visit_In (fsys : os.FileSystem) (d : string) (call : os.Call) :
  In call (visit fsys d) ->
  d <> "" /\ In (os.CallStat d) (visit fsys d)
  /\ (call = os.CallStat d \/ (call = os.CallReadDir d /\ os.stat fsys d = true)).
Proof.
  unfold visit. destruct (String.eqb_spec d "") as [|Hd]; [intros []|].
  destruct (os.stat fsys d); simpl; intros H; (split; [assumption|]);
    (split; [now left|]); intuition auto.
Qed.

Lemma visit_length (fsys : os.FileSystem) (dirs : list string) :
  List.length (flat_map (visit fsys) dirs) <= 2 * List.length dirs.
Proof.
  induction dirs as [|d dirs IH]; [simpl; lia|].
  cbn [flat_map]. rewrite length_app. cbn [List.length].
  assert (List.length (visit fsys d) <= 2).
  { unfold visit. destruct (d =? "")%string; [simpl; lia|].
    destruct (os.stat fsys d); simpl; lia. }
  lia.
Qed.

(** The calls of a search are the visits of the directories up to the one
    with the match, or of all of them. *)
Lemma findFile_scanned (fsys : os.FileSystem) (dirs : list string) (name : string) :
  exists scanned rest,
    dirs = scanned ++ rest
    /\ os.trace (findFile dirs name) fsys = flat_map (visit fsys) scanned
    /\ (snd (os.result (findFile dirs name) fsys) <> None -> rest = []).
Proof.
  unfold os.trace, os.result.
  destruct (dirs_split fsys name dirs)
    as [Hall|(pre & dir & post & f & -> & Hpre & Hf)].
  - exists dirs, []. rewrite (findFile_all_skipped fsys name dirs Hall).
    now rewrite app_nil_r.
  - exists (pre ++ [dir]), post.
    rewrite (findFile_found fsys name pre post dir f Hpre Hf). cbn [fst snd].
    split; [now rewrite <- app_assoc|]. split; [|congruence].
    rewrite flat_map_app. f_equal. simpl. rewrite app_nil_r. unfold visit.
    destruct Hf as (Hd & Hs & _). apply String.eqb_neq in Hd. now rewrite Hd, Hs.
Qed.

(** X10.  The search calls the file system for the directories of a
    prefix of its list only, in their order, and for the whole list when
    it fails: nothing for an empty entry, [os.Stat] alone for a directory
    that it rejects, [os.Stat] and then [ioutil.ReadDir] for the others.
    It never lists a directory that [os.Stat] rejected, never examines the
    empty path, and makes at most two calls for each entry of the list. *)
Theorem findFile_calls (fsys : os.FileSystem) (dirs : list string) (name : string) :
  (exists scanned rest,
      dirs = scanned ++ rest
      /\ os.trace (findFile dirs name) fsys = flat_map (visit fsys) scanned
      /\ (snd (os.result (findFile dirs name) fsys) <> None -> rest = []))
  /\ (forall d, In (os.CallReadDir d) (os.trace (findFile dirs name) fsys) ->
        In d dirs /\ d <> "" /\ os.stat fsys d = true
        /\ In (os.CallStat d) (os.trace (findFile dirs name) fsys))
  /\ (forall d, In (os.CallStat d) (os.trace (findFile dirs name) fsys) ->
        In d dirs /\ d <> "")
  /\ List.length (os.trace (findFile dirs name) fsys) <= 2 * List.length dirs.
Proof.
  destruct (findFile_scanned fsys dirs name) as (scanned & rest & Hd & Ht & Hr).
  split; [now exists scanned, rest|].
  rewrite Ht. split; [|split].
  - intros d Hin. apply in_flat_map in Hin as (x & Hx & Hin).
    destruct (visit_In fsys x _ Hin) as (Hne & Hstat & [E|[E Hs]]); [discriminate|].
    injection E as <-. split; [subst dirs; apply in_or_app; now left|].
    split; [assumption|]. split; [assumption|].
    apply in_flat_map. now exists d.
  - intros d Hin. apply in_flat_map in Hin as (x & Hx & Hin).
    destruct (visit_In fsys x _ Hin) as (Hne & _ & [E|[E _]]); [|discriminate].
    injection E as <-. split; [subst dirs; apply in_or_app; now left|assumption].
  - pose proof (visit_length fsys scanned) as Hl.
    subst dirs. rewrite length_app. lia.
Qed.

Lemma findFile_calls_witness :
  os.stat exampleFS "/etc/xdg/app" = true
  /\ In (os.CallStat "/etc/xdg/app")
        (os.trace (findFile [""; "/srv"; "/etc/xdg/app"; "/opt"] "themes") exampleFS)
  /\ "/srv" <> "".
Proof.
  pose proof (findFile_calls exampleFS [""; "/srv"; "/etc/xdg/app"; "/opt"] "themes")
    as (_ & HR & HS & _).
  destruct (HR "/etc/xdg/app") as (_ & _ & Hs & Hin).
  { right. right. now left. }
  destruct (HS "/srv") as (_ & Hne).
  { now left. }
  split; [exact Hs|]. split; [exact Hin|exact Hne].
Defined.

Lemma Split_length (sep : ascii) (s : string) :
  List.length (strings.Split s sep) = S (countByte sep s).
Proof.
  induction s as [|c s IH]; [reflexivity|].
  simpl. destruct (Ascii.eqb c sep).
  - simpl. now rewrite IH.
  - destruct (strings.Split s sep) as [|e es]; [discriminate IH|]. exact IH.
Qed.

(** X11.  The list of directories that FindConfigFile and FindDataFile
    search has two entries more than the search variable has path-list
    separators, the variable unset or empty giving two entries; a search
    makes at most two calls to the file system for each of them. *)
Theorem App_Find_call_bound (c : SearchCategory) (a : App) (name : string)
    (env : os.Env) (fsys : os.FileSystem) :
  List.length (searchDirs c a env)
  = 2 + countByte filepath.ListSeparator (os.Getenv env (dirsVar c))
  /\ (env (dirsVar c) = None -> List.length (searchDirs c a env) = 2)
  /\ List.length (os.trace (App_Find c a name env) fsys)
     <= 4 + 2 * countByte filepath.ListSeparator (os.Getenv env (dirsVar c)).
Proof.
  assert (HL : List.length (searchDirs c a env)
               = 2 + countByte filepath.ListSeparator (os.Getenv env (dirsVar c))).
  { unfold searchDirs. rewrite dirsForSearch_eq. cbn [List.length].
    now rewrite length_map, Split_length. }
  split; [exact HL|]. split.
  - intros Hu. rewrite HL. unfold os.Getenv. now rewrite Hu.
  - unfold os.trace. rewrite App_Find_findFile.
    destruct (findFile_scanned fsys (searchDirs c a env) name)
      as (scanned & rest & Hd & Ht & _).
    unfold os.trace in Ht. rewrite Ht.
    pose proof (visit_length fsys scanned) as Hv.
    rewrite Hd, length_app in HL. lia.
Qed.

Lemma App_Find_call_bound_witness :
  List.length (searchDirs SearchConfig (NewApp "app") os.emptyenv) = 2.
Proof.
  exact (proj1 (proj2 (App_Find_call_bound SearchConfig (NewApp "app") "themes"
                         os.emptyenv exampleFS)) eq_refl).
Defined.
